(** * Photo gallery (src/src/App.tsx): state, effects and persistence

    A shallow embedding of the [App] component: its hook state, the
    [cacheRef] response cache, the debounce timer, the search-history
    persistence through [localStorage], and the [getPhotos] callback split
    at its [await]. *)

From Stdlib Require Import ZArith NArith List String Ascii Bool Lia DecimalString.
From stdpp Require Import base option list gmap.

Open Scope N_scope.

(** ** JavaScript strings

    A JavaScript string is a sequence of UTF-16 code units. *)

Abbreviation jsstring := (list N).

(** An ASCII literal as a JavaScript string. *)
Definition js (s : string) : jsstring :=
  (fun a => N_of_ascii a) <$> list_ascii_of_string s.

(** Truthiness of a string: the empty string is the only falsy one. *)
Definition truthy (s : jsstring) : bool :=
  match s with [] => false | _ :: _ => true end.

(** [a || b] on strings. *)
Definition str_or (a b : jsstring) : jsstring := if truthy a then a else b.

(** [WhiteSpace] and [LineTerminator] code units, the ones
    [String.prototype.trim] strips. *)
Definition is_js_space (c : N) : bool :=
  (c =? 9) || (c =? 10) || (c =? 11) || (c =? 12) || (c =? 13) || (c =? 32)
  || (c =? 160) || (c =? 5760) || ((8192 <=? c) && (c <=? 8202))
  || (c =? 8232) || (c =? 8233) || (c =? 8239) || (c =? 8287)
  || (c =? 12288) || (c =? 65279).

Fixpoint trimStart (s : jsstring) : jsstring :=
  match s with
  | [] => []
  | c :: rest => if is_js_space c then trimStart rest else s
  end.

Definition trimEnd (s : jsstring) : jsstring := reverse (trimStart (reverse s)).

Definition trim (s : jsstring) : jsstring := trimEnd (trimStart s).

(** ** JSON text of a string array

    [JSON.stringify] on a [string[]] and [JSON.parse] on the text of one,
    over code units. *)
Module Json.

(** Lower-case hexadecimal digit of a value below 16. *)
Definition hexdigit (n : N) : N := if n <? 10 then 48 + n else 87 + n.

(** [UnicodeEscape]: a backslash, [u] and four hexadecimal digits. *)
Definition unicode_escape (c : N) : list N :=
  [92; 117; hexdigit ((c / 4096) mod 16); hexdigit ((c / 256) mod 16);
   hexdigit ((c / 16) mod 16); hexdigit (c mod 16)].

Definition is_lead (c : N) : bool := (55296 <=? c) && (c <=? 56319).
Definition is_trail (c : N) : bool := (56320 <=? c) && (c <=? 57343).

(** One code point that is a single code unit, as [QuoteJSONString] writes
    it. *)
Definition quote_unit (c : N) : list N :=
  if c =? 8 then [92; 98]
  else if c =? 9 then [92; 116]
  else if c =? 10 then [92; 110]
  else if c =? 12 then [92; 102]
  else if c =? 13 then [92; 114]
  else if c =? 34 then [92; 34]
  else if c =? 92 then [92; 92]
  else if (c <? 32) || is_lead c || is_trail c then unicode_escape c
  else [c].

(** The code points of a string: a leading surrogate followed by a trailing
    one is a pair and is written as it is; a surrogate on its own is
    escaped. *)
Fixpoint quote_units (s : jsstring) : list N :=
  match s with
  | [] => []
  | c :: rest =>
      if is_lead c then
        match rest with
        | d :: rest' =>
            if is_trail d then c :: d :: quote_units rest'
            else unicode_escape c ++ quote_units rest
        | [] => unicode_escape c
        end
      else quote_unit c ++ quote_units rest
  end.

Definition QuoteJSONString (s : jsstring) : list N :=
  34 :: quote_units s ++ [34].

Fixpoint stringify_elements (l : list jsstring) : list N :=
  match l with
  | [] => []
  | [s] => QuoteJSONString s
  | s :: rest => QuoteJSONString s ++ 44 :: stringify_elements rest
  end.

(** [JSON.stringify(l)] for [l : string[]]. *)
Definition stringify (l : list jsstring) : jsstring :=
  91 :: stringify_elements l ++ [93].

(** JSON white space: tab, line feed, carriage return, space. *)
Definition is_ws (c : N) : bool :=
  (c =? 9) || (c =? 10) || (c =? 13) || (c =? 32).

Definition hexval (c : N) : option N :=
  if (48 <=? c) && (c <=? 57) then Some (c - 48)
  else if (97 <=? c) && (c <=? 102) then Some (c - 87)
  else if (65 <=? c) && (c <=? 70) then Some (c - 55)
  else None.

Definition hex4 (a b c d : N) : option N :=
  match hexval a, hexval b, hexval c, hexval d with
  | Some x3, Some x2, Some x1, Some x0 => Some (((x3 * 16 + x2) * 16 + x1) * 16 + x0)
  | _, _, _, _ => None
  end.

(** [JSONEscapeCharacter]: one of the characters that may follow a
    backslash, and the code unit it stands for. *)
Definition unescape (e : N) : option N :=
  if e =? 34 then Some 34
  else if e =? 47 then Some 47
  else if e =? 92 then Some 92
  else if e =? 98 then Some 8
  else if e =? 102 then Some 12
  else if e =? 110 then Some 10
  else if e =? 114 then Some 13
  else if e =? 116 then Some 9
  else None.

(** Where the reader of an array of strings stands. *)
Inductive Pos :=
| Start                      (* before the opening bracket *)
| First                      (* after it: a string or the closing bracket *)
| Elem                       (* after a comma: a string *)
| InStr (cur : list N)       (* inside a string; [cur] is reversed *)
| After                      (* after a string: a comma or the closing bracket *)
| Done.                      (* after the closing bracket *)

Fixpoint parse_from (st : Pos) (acc : list jsstring) (input : list N)
  : option (list jsstring) :=
  match input with
  | [] => match st with Done => Some (reverse acc) | _ => None end
  | c :: rest =>
      match st with
      | Start =>
          if is_ws c then parse_from Start acc rest
          else if c =? 91 then parse_from First acc rest
          else None
      | First =>
          if is_ws c then parse_from First acc rest
          else if c =? 34 then parse_from (InStr []) acc rest
          else if c =? 93 then parse_from Done acc rest
          else None
      | Elem =>
          if is_ws c then parse_from Elem acc rest
          else if c =? 34 then parse_from (InStr []) acc rest
          else None
      | InStr cur =>
          if c =? 34 then parse_from After (reverse cur :: acc) rest
          else if c =? 92 then
            match rest with
            | [] => None
            | e :: rest1 =>
                if e =? 117 then
                  match rest1 with
                  | h3 :: h2 :: h1 :: h0 :: rest2 =>
                      match hex4 h3 h2 h1 h0 with
                      | Some u => parse_from (InStr (u :: cur)) acc rest2
                      | None => None
                      end
                  | _ => None
                  end
                else
                  match unescape e with
                  | Some u => parse_from (InStr (u :: cur)) acc rest1
                  | None => None
                  end
            end
          else if c <? 32 then None
          else parse_from (InStr (c :: cur)) acc rest
      | After =>
          if is_ws c then parse_from After acc rest
          else if c =? 44 then parse_from Elem acc rest
          else if c =? 93 then parse_from Done acc rest
          else None
      | Done => if is_ws c then parse_from Done acc rest else None
      end
  end.

(** [JSON.parse(text)] where the value is an array of strings; [None] when
    the text is not JSON ([SyntaxError]) or is another JSON value. *)
Definition parse (text : jsstring) : option (list jsstring) :=
  parse_from Start [] text.

End Json.

(** ** Data of the component *)

(** The [Photo] type of the source. *)
Record Photo := {
  photo_id : jsstring;
  alt_description : option jsstring;
  description : option jsstring;
  urls_small : jsstring;
  urls_regular : jsstring;
  user_name : jsstring;
  user_links_html : jsstring;
  width : Z;
  height : Z }.

(** ["popular" | "latest"]. *)
Inductive Mode := popular | latest.

#[global] Instance Mode_eq_dec : EqDecision Mode.
Proof. solve_decision. Defined.

Definition mode_text (m : Mode) : jsstring :=
  match m with popular => js "popular" | latest => js "latest" end.

(** What a suspended [getPhotos] call keeps across its [await]: the
    [debouncedQuery] and [mode] its closure was created with, and its two
    arguments. *)
Record Pending := {
  p_debouncedQuery : jsstring;
  p_mode : Mode;
  p_pageNum : Z;
  p_replace : bool }.

(** A call of [fetch]: the address and the [Authorization] header. *)
Record Request := { url : jsstring; authorization : jsstring }.

(** The hook state of [App], the two mutable stores it writes
    ([cacheRef.current], [localStorage]), and what is pending in the event
    loop for it: the debounce timeout, the observer callback and the
    suspended [getPhotos] calls. *)
Record State := {
  photos : list Photo;
  page : Z;
  loading : bool;
  mode : Mode;
  query : jsstring;
  debouncedQuery : jsstring;
  error : option jsstring;
  selected : option Photo;
  history : list jsstring;
  cache : gmap jsstring (gmap Z (list Photo));   (* what is written through [cacheRef.current] *)
  localStorage : gmap jsstring jsstring;
  timer : option (N * jsstring);   (* milliseconds left, the [query] it closes over *)
  observedLoading : bool;          (* the [loading] the observer callback closes over *)
  inflight : list Pending;
  fetched : list Request }.        (* every call of [fetch] so far, oldest first *)

Definition set_photos (v : list Photo) (s : State) : State :=
  {| photos := v; page := page s; loading := loading s; mode := mode s;
     query := query s; debouncedQuery := debouncedQuery s; error := error s;
     selected := selected s; history := history s; cache := cache s;
     localStorage := localStorage s; timer := timer s;
     observedLoading := observedLoading s; inflight := inflight s;
     fetched := fetched s |}.

Definition set_page (v : Z) (s : State) : State :=
  {| photos := photos s; page := v; loading := loading s; mode := mode s;
     query := query s; debouncedQuery := debouncedQuery s; error := error s;
     selected := selected s; history := history s; cache := cache s;
     localStorage := localStorage s; timer := timer s;
     observedLoading := observedLoading s; inflight := inflight s;
     fetched := fetched s |}.

Definition set_loading (v : bool) (s : State) : State :=
  {| photos := photos s; page := page s; loading := v; mode := mode s;
     query := query s; debouncedQuery := debouncedQuery s; error := error s;
     selected := selected s; history := history s; cache := cache s;
     localStorage := localStorage s; timer := timer s;
     observedLoading := observedLoading s; inflight := inflight s;
     fetched := fetched s |}.

Definition set_mode (v : Mode) (s : State) : State :=
  {| photos := photos s; page := page s; loading := loading s; mode := v;
     query := query s; debouncedQuery := debouncedQuery s; error := error s;
     selected := selected s; history := history s; cache := cache s;
     localStorage := localStorage s; timer := timer s;
     observedLoading := observedLoading s; inflight := inflight s;
     fetched := fetched s |}.

Definition set_query (v : jsstring) (s : State) : State :=
  {| photos := photos s; page := page s; loading := loading s; mode := mode s;
     query := v; debouncedQuery := debouncedQuery s; error := error s;
     selected := selected s; history := history s; cache := cache s;
     localStorage := localStorage s; timer := timer s;
     observedLoading := observedLoading s; inflight := inflight s;
     fetched := fetched s |}.

Definition set_debouncedQuery (v : jsstring) (s : State) : State :=
  {| photos := photos s; page := page s; loading := loading s; mode := mode s;
     query := query s; debouncedQuery := v; error := error s;
     selected := selected s; history := history s; cache := cache s;
     localStorage := localStorage s; timer := timer s;
     observedLoading := observedLoading s; inflight := inflight s;
     fetched := fetched s |}.

Definition set_error (v : option jsstring) (s : State) : State :=
  {| photos := photos s; page := page s; loading := loading s; mode := mode s;
     query := query s; debouncedQuery := debouncedQuery s; error := v;
     selected := selected s; history := history s; cache := cache s;
     localStorage := localStorage s; timer := timer s;
     observedLoading := observedLoading s; inflight := inflight s;
     fetched := fetched s |}.

Definition set_selected (v : option Photo) (s : State) : State :=
  {| photos := photos s; page := page s; loading := loading s; mode := mode s;
     query := query s; debouncedQuery := debouncedQuery s; error := error s;
     selected := v; history := history s; cache := cache s;
     localStorage := localStorage s; timer := timer s;
     observedLoading := observedLoading s; inflight := inflight s;
     fetched := fetched s |}.

Definition set_history (v : list jsstring) (s : State) : State :=
  {| photos := photos s; page := page s; loading := loading s; mode := mode s;
     query := query s; debouncedQuery := debouncedQuery s; error := error s;
     selected := selected s; history := v; cache := cache s;
     localStorage := localStorage s; timer := timer s;
     observedLoading := observedLoading s; inflight := inflight s;
     fetched := fetched s |}.

Definition set_cache (v : gmap jsstring (gmap Z (list Photo))) (s : State) : State :=
  {| photos := photos s; page := page s; loading := loading s; mode := mode s;
     query := query s; debouncedQuery := debouncedQuery s; error := error s;
     selected := selected s; history := history s; cache := v;
     localStorage := localStorage s; timer := timer s;
     observedLoading := observedLoading s; inflight := inflight s;
     fetched := fetched s |}.

Definition set_localStorage (v : gmap jsstring jsstring) (s : State) : State :=
  {| photos := photos s; page := page s; loading := loading s; mode := mode s;
     query := query s; debouncedQuery := debouncedQuery s; error := error s;
     selected := selected s; history := history s; cache := cache s;
     localStorage := v; timer := timer s;
     observedLoading := observedLoading s; inflight := inflight s;
     fetched := fetched s |}.

Definition set_timer (v : option (N * jsstring)) (s : State) : State :=
  {| photos := photos s; page := page s; loading := loading s; mode := mode s;
     query := query s; debouncedQuery := debouncedQuery s; error := error s;
     selected := selected s; history := history s; cache := cache s;
     localStorage := localStorage s; timer := v;
     observedLoading := observedLoading s; inflight := inflight s;
     fetched := fetched s |}.

Definition set_observedLoading (v : bool) (s : State) : State :=
  {| photos := photos s; page := page s; loading := loading s; mode := mode s;
     query := query s; debouncedQuery := debouncedQuery s; error := error s;
     selected := selected s; history := history s; cache := cache s;
     localStorage := localStorage s; timer := timer s;
     observedLoading := v; inflight := inflight s;
     fetched := fetched s |}.

Definition set_inflight (v : list Pending) (s : State) : State :=
  {| photos := photos s; page := page s; loading := loading s; mode := mode s;
     query := query s; debouncedQuery := debouncedQuery s; error := error s;
     selected := selected s; history := history s; cache := cache s;
     localStorage := localStorage s; timer := timer s;
     observedLoading := observedLoading s; inflight := v;
     fetched := fetched s |}.

Definition set_fetched (v : list Request) (s : State) : State :=
  {| photos := photos s; page := page s; loading := loading s; mode := mode s;
     query := query s; debouncedQuery := debouncedQuery s; error := error s;
     selected := selected s; history := history s; cache := cache s;
     localStorage := localStorage s; timer := timer s;
     observedLoading := observedLoading s; inflight := inflight s;
     fetched := v |}.

(** ** What the environment hands back *)

(** The value of [await res.json()] as far as the component reads it: the
    feed endpoint answers with an array of photos, the search endpoint with
    an object that has a [results] array; an error answer of the API is an
    object without one. *)
Inductive Data :=
| DArray (items : list Photo)
| DObject (results : option (list Photo)).

(** An exception; [catch] reads its [message]. *)
Record JsError := { message : jsstring }.

(** How the awaited part of one [getPhotos] call ends. *)
Inductive Response :=
| FetchThrows (e : JsError)      (* [await fetch(url, ...)] rejects *)
| JsonThrows (e : JsError)       (* [await res.json()] rejects *)
| Parsed (data : Data).

(** A step of the component either leaves it running or ends it: a value
    that is not an array reaches [photos] and rendering throws, or the
    stored history cannot be read as an array of strings. *)
Inductive Failure := RenderThrows | StoredHistoryUnreadable.

Inductive Outcome :=
| Ok (s : State)
| Failed (why : Failure).

Definition bind (o : Outcome) (k : State -> Outcome) : Outcome :=
  match o with Ok s => k s | Failed why => Failed why end.

Notation "'do' s <- o ; k" := (bind o (fun s => k))
  (at level 10, s name, o at level 100, k at level 200).

(** What the user and the event loop do to the mounted component. *)
Inductive Event :=
| Change (value : jsstring)            (* [onChange] of the search input *)
| SetMode (m : Mode)                   (* the Popular and Latest buttons *)
| HistoryClick (term : jsstring)       (* [handleHistoryClick] *)
| Select (p : Photo)                   (* a click on a card *)
| CloseModal
| Tick (ms : N)                        (* time passes *)
| Intersect (entries : list bool)      (* the observer callback; [isIntersecting] of each entry *)
| Respond (i : nat) (r : Response).    (* the [i]-th suspended [getPhotos] call resumes *)

(** A page number in a template literal: its decimal digits. *)
Definition num (z : Z) : jsstring := js (NilZero.string_of_int (Z.to_int z)).

Definition initial (ls : gmap jsstring jsstring) : State :=
  {| photos := []; page := 1; loading := false; mode := popular;
     query := []; debouncedQuery := []; error := None; selected := None;
     history := []; cache := ∅; localStorage := ls; timer := None;
     observedLoading := false; inflight := []; fetched := [] |}.

Section Gallery.

(** [import.meta.env.VITE_UNSPLASH_ACCESS_KEY]: a string, or undefined. *)
Variable ACCESS_KEY : option jsstring.

Definition has_key : bool :=
  match ACCESS_KEY with Some k => truthy k | None => false end.

(** [`${debouncedQuery || mode}`]. *)
Definition cacheKey (debouncedQuery : jsstring) (m : Mode) : jsstring :=
  str_or debouncedQuery (mode_text m).

(** [cacheRef.current] is a plain object, so a key is looked up along its
    prototype chain. The map [c] holds, for each key, the numbered
    properties of the object the key leads to: the page object that line 86
    created for it, one of the functions every object inherits, or, under
    ["__proto__"], [Object.prototype] itself, from which all of these
    inherit. *)
Definition prototype_key : jsstring := js "__proto__".

(** The function-valued properties of [Object.prototype]. *)
Definition inherited_names : list jsstring :=
  [js "constructor"; js "hasOwnProperty"; js "isPrototypeOf";
   js "propertyIsEnumerable"; js "toLocaleString"; js "toString"; js "valueOf";
   js "__defineGetter__"; js "__defineSetter__"; js "__lookupGetter__";
   js "__lookupSetter__"].

(** The pages written on [Object.prototype]. *)
Definition prototype_pages (c : gmap jsstring (gmap Z (list Photo)))
  : gmap Z (list Photo) :=
  default ∅ (c !! prototype_key).

(** [cacheRef.current[key]] is defined, so that [?.] goes on to
    [[pageNum]]: the key has a page object of its own, or it names
    something inherited. The decimal text of a page number written on
    [Object.prototype] is such a name too and leads to the photos of that
    page. There the code takes the photo with index [pageNum], if the page
    has one, for a list of photos, and line 87 writes a page among the
    photos: values that [Photo[]] and [list Photo] do not have. For such a
    key the lookup here goes on to the prototype, as the code does when the
    page has no photo with that index, and a page written under the key
    stays with the key. *)
Definition has_pages (c : gmap jsstring (gmap Z (list Photo))) (key : jsstring) : bool :=
  bool_decide (key = prototype_key)
  || bool_decide (is_Some (c !! key))
  || bool_decide (key ∈ inherited_names)
  || existsb (fun e => bool_decide (num e.1 = key)) (map_to_list (prototype_pages c)).

(** [cacheRef.current[cacheKey]?.[pageNum]]. *)
Definition cachedPage (c : gmap jsstring (gmap Z (list Photo)))
    (key : jsstring) (pageNum : Z) : option (list Photo) :=
  if has_pages c key then
    match default ∅ (c !! key) !! pageNum with
    | Some hit => Some hit
    | None => prototype_pages c !! pageNum
    end
  else None.

Definition request_url (debouncedQuery : jsstring) (m : Mode) (pageNum : Z) : jsstring :=
  if truthy debouncedQuery then
    js "https://api.unsplash.com/search/photos?page=" ++ num pageNum
      ++ js "&per_page=20&query=" ++ debouncedQuery
  else
    js "https://api.unsplash.com/photos?page=" ++ num pageNum
      ++ js "&per_page=20&order_by=" ++ mode_text m.

Definition request_for (p : Pending) : Request :=
  {| url := request_url (p_debouncedQuery p) (p_mode p) (p_pageNum p);
     authorization := js "Client-ID " ++ default [] ACCESS_KEY |}.

(** [getPhotos(pageNum, replace)] up to its first [await], for the closure
    over [debouncedQuery] and [m]. *)
Definition getPhotos (debouncedQuery : jsstring) (m : Mode)
    (pageNum : Z) (replace : bool) (s : State) : State :=
  if negb has_key then set_error (Some (js "No API key found.")) s
  else
    match cachedPage (cache s) (cacheKey debouncedQuery m) pageNum with
    | Some hit =>
        set_photos (if replace then hit else photos s ++ hit) s
    | None =>
        let p := {| p_debouncedQuery := debouncedQuery; p_mode := m;
                    p_pageNum := pageNum; p_replace := replace |} in
        let s := set_loading true s in
        let s := set_error None s in
        let s := set_fetched (fetched s ++ [request_for p]) s in
        set_inflight (inflight s ++ [p]) s
    end.

(** [debouncedQuery ? data.results : data], when it is an array. *)
Definition results_of (debouncedQuery : jsstring) (data : Data) : option (list Photo) :=
  if truthy debouncedQuery then
    match data with DObject r => r | DArray _ => None end
  else
    match data with DArray items => Some items | DObject _ => None end.

(** [[debouncedQuery, ...prev.filter((h) => h !== debouncedQuery)].slice(0, 5)]. *)
Definition newHistory (debouncedQuery : jsstring) (prev : list jsstring) : list jsstring :=
  take 5 (debouncedQuery :: filter (fun h => h ≠ debouncedQuery) prev).

(** The rest of [getPhotos] after the [await]s: the remainder of the [try]
    block, [catch] and [finally]. *)
Definition getPhotos_resume (p : Pending) (r : Response) (s : State) : Outcome :=
  match r with
  | FetchThrows e | JsonThrows e =>
      let s := set_error (Some (str_or (message e) (js "Something went wrong"))) s in
      Ok (set_loading false s)
  | Parsed data =>
      match results_of (p_debouncedQuery p) data with
      | None => Failed RenderThrows
      | Some results =>
          let key := cacheKey (p_debouncedQuery p) (p_mode p) in
          let pages := default ∅ (cache s !! key) in
          let s := set_cache (<[key := <[p_pageNum p := results]> pages]> (cache s)) s in
          let s := set_photos (if p_replace p then results else photos s ++ results) s in
          let s :=
            if p_replace p && truthy (p_debouncedQuery p)
            then set_history (newHistory (p_debouncedQuery p) (history s)) s
            else s in
          Ok (set_loading false s)
      end
  end.

(** *** The effects, in the order the component declares them

    [cur] is the render the effect belongs to (its closure); [s] is the
    state the queued updates and the writes to the stores accumulate in. *)

Definition storage_key : jsstring := js "search-history".

Definition effect_debounce (cur s : State) : State :=
  set_timer (Some (500, query cur)) s.

Definition effect_restore (cur s : State) : Outcome :=
  match localStorage s !! storage_key with
  | Some stored =>
      if truthy stored then
        match Json.parse stored with
        | Some h => Ok (set_history h s)
        | None => Failed StoredHistoryUnreadable
        end
      else Ok s
  | None => Ok s
  end.

Definition effect_persist (cur s : State) : State :=
  set_localStorage (<[storage_key := Json.stringify (history cur)]> (localStorage s)) s.

Definition effect_reset (cur s : State) : State :=
  let s := set_photos [] s in
  let s := set_page 1 s in
  getPhotos (debouncedQuery cur) (mode cur) 1 true s.

Definition effect_observe (cur s : State) : State :=
  set_observedLoading (loading cur) s.

Definition effect_page (cur s : State) : State :=
  if (1 <? page cur)%Z
  then getPhotos (debouncedQuery cur) (mode cur) (page cur) false s
  else s.

(** An effect runs after a render when one of its dependencies differs from
    the previous render; [getPhotos] is a new function exactly when [mode]
    or [debouncedQuery] is. The history is compared by its content: the
    source compares the array by identity, and writing the text of an equal
    list over the one stored changes nothing. *)
Definition changed {A} `{EqDecision A} (f : State -> A) (prev cur : State) : bool :=
  negb (bool_decide (f prev = f cur)).

Definition feed_changed (prev cur : State) : bool :=
  changed mode prev cur || changed debouncedQuery prev cur.

Definition effects (prev cur : State) : State :=
  let s := cur in
  let s := if changed query prev cur then effect_debounce cur s else s in
  let s := if changed history prev cur then effect_persist cur s else s in
  let s := if feed_changed prev cur then effect_reset cur s else s in
  let s := if changed loading prev cur then effect_observe cur s else s in
  let s := if changed page prev cur || feed_changed prev cur
           then effect_page cur s else s in
  s.

Definition same_deps (a b : State) : bool :=
  negb (changed query a b || changed history a b || feed_changed a b
        || changed loading a b || changed page a b).

(** Render [cur] after [prev], run its effects, and render again while the
    effects changed a dependency. *)
Fixpoint rerender (fuel : nat) (prev cur : State) : State :=
  match fuel with
  | O => cur
  | S n =>
      let next := effects prev cur in
      if same_deps cur next then next else rerender n cur next
  end.

Definition commit (prev cur : State) : State := rerender 3 prev cur.

(** The first render and its effects, all of which run. *)
Definition mount (ls : gmap jsstring jsstring) : Outcome :=
  let cur := initial ls in
  let s := effect_debounce cur cur in
  do s <- effect_restore cur s;
  let s := effect_persist cur s in
  let s := effect_reset cur s in
  let s := effect_observe cur s in
  let s := effect_page cur s in
  Ok (commit cur s).

Definition handleHistoryClick (term : jsstring) (s : State) : State :=
  set_debouncedQuery term (set_query term s).

(** The observer callback: [entries.forEach], with the [loading] of its
    closure. *)
Definition observer_callback (entries : list bool) (s : State) : State :=
  fold_left
    (fun s isIntersecting =>
       if isIntersecting && negb (observedLoading s)
       then set_page (page s + 1)%Z s else s)
    entries s.

(** The debounce timeout: it runs its callback once its 500 ms are over. *)
Definition tick (ms : N) (s : State) : State :=
  match timer s with
  | None => s
  | Some (remaining, q) =>
      if ms <? remaining then set_timer (Some (remaining - ms, q)) s
      else commit s (set_debouncedQuery (trim q) (set_timer None s))
  end.

Definition step (e : Event) (s : State) : Outcome :=
  match e with
  | Change value => Ok (commit s (set_query value s))
  | SetMode m => Ok (commit s (set_mode m s))
  | HistoryClick term => Ok (commit s (handleHistoryClick term s))
  | Select p => Ok (commit s (set_selected (Some p) s))
  | CloseModal => Ok (commit s (set_selected None s))
  | Tick ms => Ok (tick ms s)
  | Intersect entries => Ok (commit s (observer_callback entries s))
  | Respond i r =>
      match inflight s !! i with
      | None => Ok s
      | Some p =>
          do s' <- getPhotos_resume p r (set_inflight (delete i (inflight s)) s);
          Ok (commit s s')
      end
  end.

Fixpoint run (es : list Event) (s : State) : Outcome :=
  match es with
  | [] => Ok s
  | e :: rest => do s' <- step e s; run rest s'
  end.

End Gallery.

(** ** States of a running component *)

(** The states the mounted component can be in: the one after mounting,
    over any content of [localStorage], and the ones events lead to. *)
Inductive reachable (K : option jsstring) : State -> Prop :=
| reachable_mount ls s :
    mount K ls = Ok s -> reachable K s
| reachable_step e s s' :
    reachable K s -> step K e s = Ok s' -> reachable K s'.

(** What holds of every state of a running component: the observer
    callback closes over the current [loading], the page counter is at
    least one, and [localStorage] holds the text of the history. *)
Definition sound (s : State) : Prop :=
  observedLoading s = loading s
  /\ (1 <= page s)%Z
  /\ localStorage s !! storage_key = Some (Json.stringify (history s)).

(** The shape of the search history: no term twice, five terms at most. *)
Definition history_ok (h : list jsstring) : Prop :=
  NoDup h /\ (length h <= 5)%nat.

(** A [localStorage] the component itself left behind: nothing under the
    key, or the text of a history of that shape. *)
Definition own_storage (ls : gmap jsstring jsstring) : Prop :=
  ls !! storage_key = None
  \/ exists h, history_ok h /\ ls !! storage_key = Some (Json.stringify h).

(** A burst of typing: each edit is followed by the time that passes before
    the next one. *)
Definition typing (edits : list (jsstring * N)) : list Event :=
  flat_map (fun e => [Change e.1; Tick e.2]) edits.

(** Every edit changes the input: its value differs from the one before. *)
Fixpoint each_changes (current : jsstring) (edits : list (jsstring * N)) : Prop :=
  match edits with
  | [] => True
  | e :: rest => e.1 <> current /\ each_changes e.1 rest
  end.

(** The value of the input after the edits. *)
Definition typed (current : jsstring) (edits : list (jsstring * N)) : jsstring :=
  default current (last (edits.*1)).

(** The suspended calls that replace the list: the [getPhotos(1, true)] of
    the reset effect. *)
Definition replacing (l : list Pending) : list Pending :=
  filter (fun p => p_replace p = true) l.

(** The last render of a commit: the observer effect runs again when the
    effects of the render before changed [loading]. *)
Definition resubscribe (cur next : State) : State :=
  if changed loading cur next then effect_observe next next else next.

(** ** A small gallery to run *)
Module Demo.

Definition K : option jsstring := Some (js "demo-key").

Definition photo (id : string) : Photo :=
  {| photo_id := js id; alt_description := None; description := None;
     urls_small := js "https://images.example/s"; urls_regular := js "https://images.example/r";
     user_name := js "someone"; user_links_html := js "https://example/u";
     width := 4; height := 3 |}.

Definition a : Photo := photo "a".
Definition b : Photo := photo "b".
Definition c : Photo := photo "c".

Definition state_of (o : Outcome) : State :=
  match o with Ok s => s | Failed _ => initial ∅ end.

(** Mounted over an empty [localStorage]: the first page of the popular
    feed is being fetched. *)
Definition mounted : State := state_of (mount K ∅).

Definition first_call : Pending :=
  {| p_debouncedQuery := []; p_mode := popular; p_pageNum := 1; p_replace := true |}.

(** The first page has arrived. *)
Definition idle : State :=
  state_of (step K (Respond 0 (Parsed (DArray [a]))) mounted).

(** A term of the history was clicked: its search is being fetched. *)
Definition searching : State :=
  state_of (step K (HistoryClick (js "cats")) idle).

Definition search_call : Pending :=
  {| p_debouncedQuery := js "cats"; p_mode := popular; p_pageNum := 1;
     p_replace := true |}.

(** A [localStorage] left by an earlier session. *)
Definition stored_terms : list jsstring := [js "cats"; js "dogs"].

Definition storage : gmap jsstring jsstring :=
  {[ storage_key := Json.stringify stored_terms ]}.

(** The second page of the popular feed has arrived as well. *)
Definition scrolled : State :=
  state_of (run K [Intersect [true]; Respond 0 (Parsed (DArray [b]))] idle).

End Demo.

(** ** The addresses as the claims word them

    The photos endpoint with [order_by] the mode, "popular" or "latest",
    when there is no query, and the search endpoint carrying the query when
    there is one; to be compared with [request_url]. *)
Definition described_url (q : jsstring) (m : Mode) (n : Z) : jsstring :=
  match q with
  | [] =>
      js "https://api.unsplash.com/photos?page=" ++ num n
        ++ js "&per_page=20&order_by="
        ++ match m with popular => js "popular" | latest => js "latest" end
  | _ :: _ =>
      js "https://api.unsplash.com/search/photos?page=" ++ num n
        ++ js "&per_page=20&query=" ++ q
  end.

(** ** What the component renders *)

(** [a || b] where [a] is [string | null]. *)
Definition opt_or (a : option jsstring) (b : jsstring) : jsstring :=
  match a with
  | Some (c :: rest) => c :: rest
  | _ => b
  end.

(** One [article] of the grid. *)
Record Card := {
  card_key : jsstring;
  card_alt : jsstring;
  card_src : jsstring;
  card_width : Z;
  card_height : Z;
  card_meta : jsstring }.

(** The detail modal. *)
Record Modal := {
  modal_src : jsstring;
  modal_alt : jsstring;
  modal_title : jsstring;
  modal_href : jsstring;
  modal_name : jsstring }.

(** The parts of the rendered tree that depend on the state. *)
Record View := {
  popular_class : jsstring;
  latest_class : jsstring;
  input_value : jsstring;
  dropdown : option (list jsstring);     (* [history.length > 0 && ...] *)
  error_banner : option jsstring;        (* [error && ...] *)
  cards : list Card;                     (* the elements [photos.map] returns *)
  loading_notice : bool;                 (* [loading && ...] *)
  empty_notice : bool;                   (* [!loading && photos.length === 0 && ...] *)
  modal : option Modal }.                (* [selected && ...] *)

Definition card_of (p : Photo) : Card :=
  {| card_key := photo_id p;
     card_alt := opt_or (alt_description p) (js "Photo by " ++ user_name p);
     card_src := urls_small p;
     card_width := width p;
     card_height := height p;
     card_meta := user_name p |}.

Definition modal_of (p : Photo) : Modal :=
  {| modal_src := urls_regular p;
     modal_alt := opt_or (alt_description p) (js "Photo");
     modal_title := opt_or (description p) (opt_or (alt_description p) (js "Untitled"));
     modal_href := user_links_html p;
     modal_name := user_name p |}.

Definition render (s : State) : View :=
  {| popular_class := if decide (mode s = popular) then js "active" else [];
     latest_class := if decide (mode s = latest) then js "active" else [];
     input_value := query s;
     dropdown := match history s with [] => None | _ :: _ => Some (history s) end;
     error_banner := match error s with
                     | Some (c :: rest) => Some (c :: rest)
                     | _ => None
                     end;
     cards := card_of <$> photos s;
     loading_notice := loading s;
     empty_notice := negb (loading s) && (length (photos s) =? 0)%nat;
     modal := modal_of <$> selected s |}.

(** ** More of what holds while the component runs *)

(** The pending timeout closes over the current input and has at most its
    500 ms left. *)
Definition timer_ok (s : State) : Prop :=
  match timer s with
  | Some (remaining, q) => q = query s /\ 0 < remaining <= 500
  | None => True
  end.

(** The loading flag is up only while a call is suspended. *)
Definition loading_ok (s : State) : Prop :=
  loading s = true -> inflight s <> [].

(** The error, when set, is a text that shows. *)
Definition error_ok (s : State) : Prop :=
  match error s with Some [] => False | _ => True end.

(** Every request made is one [getPhotos] builds, with a key configured. *)
Definition authorized (K : option jsstring) (s : State) : Prop :=
  Forall (fun r => has_key K = true /\ exists p, r = request_for K p) (fetched s).

(** A component without a key: it shows the error and nothing else. *)
Definition keyless (s : State) : Prop :=
  fetched s = [] /\ inflight s = [] /\ photos s = [] /\ loading s = false
  /\ cache s = ∅ /\ error s = Some (js "No API key found.").

(** Every cached page of [c] is still cached in [c']. *)
Definition cache_kept (c c' : gmap jsstring (gmap Z (list Photo))) : Prop :=
  forall key n hit, cachedPage c key n = Some hit ->
                    exists hit', cachedPage c' key n = Some hit'.

(** No white space at either end. *)
Definition trimmed (s : jsstring) : Prop :=
  match s with
  | [] => True
  | c :: _ => is_js_space c = false
              /\ match last s with Some d => is_js_space d = false | None => True end
  end.

(** ** More states to run *)
Module Sample.

(** Mounted without a key. *)
Definition keyless_mounted : State := Demo.state_of (mount None ∅).

(** The popular feed with its first page shown, then the latest feed
    chosen and its first page shown. *)
Definition both_feeds : State :=
  Demo.state_of
    (run Demo.K [SetMode latest; Respond 0 (Parsed (DArray [Demo.b]))] Demo.idle).

(** Three calls suspended: the second page of the popular feed, and the
    first and the second page of the latest feed. *)
Definition several_pending : State :=
  Demo.state_of (run Demo.K [Intersect [true]; SetMode latest] Demo.idle).

(** The first request failed. *)
Definition failed_load : State :=
  Demo.state_of (step Demo.K (Respond 0 (FetchThrows {| message := [] |})) Demo.mounted).

(** The popular feed shown, then "__proto__" searched, scrolled to its
    second page with the first one answered: the call for the second page
    of that search is suspended. *)
Definition prototype_search : State :=
  Demo.state_of
    (run Demo.K [Change (js "__proto__"); Tick 500;
                 Respond 0 (Parsed (DObject (Some [Demo.b]))); Intersect [true]]
       Demo.idle).

Definition prototype_call : Pending :=
  {| p_debouncedQuery := js "__proto__"; p_mode := popular; p_pageNum := 2;
     p_replace := false |}.

(** A [localStorage] in which another part of the page keeps a value. *)
Definition shared_storage : gmap jsstring jsstring :=
  {[ js "theme" := js "dark" ]}.

(** "cats" searched and answered, then "dogs" searched and answered: the
    first page of both searches is cached. *)
Definition two_searches : State :=
  Demo.state_of
    (run Demo.K [HistoryClick (js "cats"); Respond 0 (Parsed (DObject (Some [Demo.a])));
                 HistoryClick (js "dogs"); Respond 0 (Parsed (DObject (Some [Demo.b])))]
       Demo.idle).

(** A [localStorage] whose stored history names a term twice. *)
Definition doubled_storage : gmap jsstring jsstring :=
  {[ storage_key := Json.stringify [js "a"; js "a"] ]}.

(** Mounted over the history of an earlier session, the first page of the
    feed shown, and a term of that history clicked. *)
Definition restored_search : State :=
  Demo.state_of
    (run Demo.K [Respond 0 (Parsed (DArray [Demo.a])); HistoryClick (js "dogs")]
       (Demo.state_of (mount Demo.K Demo.storage))).

Definition restored_call : Pending :=
  {| p_debouncedQuery := js "dogs"; p_mode := popular; p_pageNum := 1;
     p_replace := true |}.

End Sample.

(* ================================================================== *)
(** * Properties *)

(** ** JSON text of a string array *)
Module JsonFacts.
Import Json.

Ltac cmp :=
  repeat match goal with
    | |- context [N.leb ?a ?b] => destruct (N.leb_spec a b)
    | |- context [N.ltb ?a ?b] => destruct (N.ltb_spec a b)
    | |- context [N.eqb ?a ?b] => destruct (N.eqb_spec a b)
    | H : context [N.leb ?a ?b] |- _ => destruct (N.leb_spec a b)
    | H : context [N.ltb ?a ?b] |- _ => destruct (N.ltb_spec a b)
    | H : context [N.eqb ?a ?b] |- _ => destruct (N.eqb_spec a b)
    end; simpl in *; try discriminate; try lia.

Lemma hexval_hexdigit n : n < 16 -> hexval (hexdigit n) = Some n.
Proof.
  intros Hn. unfold hexval, hexdigit. cmp; f_equal; lia.
Qed.

Lemma hex4_digits c :
  c < 65536 ->
  hex4 (hexdigit ((c / 4096) mod 16)) (hexdigit ((c / 256) mod 16))
       (hexdigit ((c / 16) mod 16)) (hexdigit (c mod 16)) = Some c.
Proof.
  intros Hc. unfold hex4.
  rewrite !hexval_hexdigit by (apply N.mod_lt; lia).
  f_equal.
  pose proof (N.div_mod c 16 ltac:(lia)) as H0.
  pose proof (N.div_mod (c / 16) 16 ltac:(lia)) as H1.
  pose proof (N.div_mod (c / 256) 16 ltac:(lia)) as H2.
  assert (E1 : c / 16 / 16 = c / 256) by (rewrite N.Div0.div_div; reflexivity).
  assert (E2 : c / 256 / 16 = c / 4096) by (rewrite N.Div0.div_div; reflexivity).
  assert (E3 : (c / 4096) mod 16 = c / 4096).
  { apply N.mod_small. apply N.Div0.div_lt_upper_bound. lia. }
  rewrite E1 in H1. rewrite E2 in H2. rewrite E3. lia.
Qed.

Lemma parse_escape cur acc c tl :
  c < 65536 ->
  parse_from (InStr cur) acc (unicode_escape c ++ tl)
  = parse_from (InStr (c :: cur)) acc tl.
Proof.
  intros Hc. unfold unicode_escape. cbn [app parse_from N.eqb Pos.eqb].
  rewrite hex4_digits by assumption. reflexivity.
Qed.

Lemma parse_raw cur acc c tl :
  32 <= c -> c <> 34 -> c <> 92 ->
  parse_from (InStr cur) acc (c :: tl) = parse_from (InStr (c :: cur)) acc tl.
Proof.
  intros H1 H2 H3. cbn [parse_from]. cmp. reflexivity.
Qed.

Lemma parse_unit cur acc c tl :
  parse_from (InStr cur) acc (quote_unit c ++ tl)
  = parse_from (InStr (c :: cur)) acc tl.
Proof.
  unfold quote_unit.
  destruct (N.eqb_spec c 8) as [->|]; [reflexivity|].
  destruct (N.eqb_spec c 9) as [->|]; [reflexivity|].
  destruct (N.eqb_spec c 10) as [->|]; [reflexivity|].
  destruct (N.eqb_spec c 12) as [->|]; [reflexivity|].
  destruct (N.eqb_spec c 13) as [->|]; [reflexivity|].
  destruct (N.eqb_spec c 34) as [->|]; [reflexivity|].
  destruct (N.eqb_spec c 92) as [->|]; [reflexivity|].
  destruct ((c <? 32) || is_lead c || is_trail c) eqn:E.
  - apply parse_escape. unfold is_lead, is_trail in E. cmp.
  - apply parse_raw; try assumption. unfold is_lead, is_trail in E. cmp.
Qed.

Lemma parse_units_bounded n : forall s cur acc tl,
  (length s <= n)%nat ->
  parse_from (InStr cur) acc (quote_units s ++ tl)
  = parse_from (InStr (reverse s ++ cur)) acc tl.
Proof.
  induction n as [|n IH]; intros s cur acc tl Hlen.
  - destruct s; [reflexivity | simpl in Hlen; lia].
  - destruct s as [|c rest]; [reflexivity|].
    simpl in Hlen. cbn [quote_units].
    destruct (is_lead c) eqn:Hlead.
    + assert (Hc : 55296 <= c <= 56319) by (unfold is_lead in Hlead; cmp).
      destruct rest as [|d rest'].
      * rewrite parse_escape by lia. reflexivity.
      * destruct (is_trail d) eqn:Htrail.
        -- assert (Hd : 56320 <= d <= 57343) by (unfold is_trail in Htrail; cmp).
           cbn [app]. rewrite parse_raw by lia. rewrite parse_raw by lia.
           rewrite IH by (simpl in Hlen; lia).
           rewrite !reverse_cons, <- !app_assoc. reflexivity.
        -- rewrite <- app_assoc, parse_escape by lia.
           rewrite IH by lia.
           rewrite (reverse_cons _ c), <- app_assoc. reflexivity.
    + rewrite <- app_assoc, parse_unit, IH by lia.
      rewrite (reverse_cons _ c), <- app_assoc. reflexivity.
Qed.

Lemma parse_units s cur acc tl :
  parse_from (InStr cur) acc (quote_units s ++ tl)
  = parse_from (InStr (reverse s ++ cur)) acc tl.
Proof. apply (parse_units_bounded (length s)). lia. Qed.

Lemma parse_quoted st s acc tl :
  st = First \/ st = Elem ->
  parse_from st acc (QuoteJSONString s ++ tl) = parse_from After (s :: acc) tl.
Proof.
  intros Hst. unfold QuoteJSONString.
  assert (E : parse_from st acc ((34 :: quote_units s ++ [34]) ++ tl)
              = parse_from (InStr []) acc (quote_units s ++ 34 :: tl)).
  { rewrite <- app_comm_cons, <- app_assoc. destruct Hst as [-> | ->]; reflexivity. }
  rewrite E, parse_units. cbn [parse_from].
  destruct (reverse s ++ []) eqn:E2; rewrite <- E2, app_nil_r, reverse_involutive;
    reflexivity.
Qed.

Lemma parse_elements l : forall st acc,
  st = First \/ st = Elem -> l <> [] ->
  parse_from st acc (stringify_elements l ++ [93]) = Some (reverse acc ++ l).
Proof.
  induction l as [|s rest IH]; intros st acc Hst Hne; [congruence|].
  destruct rest as [|s2 rest].
  - cbn [stringify_elements]. rewrite parse_quoted by assumption.
    change (parse_from After (s :: acc) [93]) with (Some (reverse (s :: acc))).
    rewrite reverse_cons. reflexivity.
  - change (stringify_elements (s :: s2 :: rest))
      with (QuoteJSONString s ++ 44 :: stringify_elements (s2 :: rest)).
    rewrite <- app_assoc, parse_quoted by assumption.
    rewrite <- app_comm_cons.
    change (parse_from After (s :: acc) (44 :: stringify_elements (s2 :: rest) ++ [93]))
      with (parse_from Elem (s :: acc) (stringify_elements (s2 :: rest) ++ [93])).
    rewrite IH by (auto; congruence).
    rewrite reverse_cons, <- app_assoc. reflexivity.
Qed.

(** Reading back the text written for a list of strings gives the list. *)
Lemma parse_stringify l : parse (stringify l) = Some l.
Proof.
  unfold parse, stringify.
  change (parse_from Start [] (91 :: stringify_elements l ++ [93]))
    with (parse_from First [] (stringify_elements l ++ [93])).
  destruct l as [|s rest]; [reflexivity|].
  rewrite parse_elements by (auto; congruence). reflexivity.
Qed.

Lemma parse_nonempty text h : parse text = Some h -> truthy text = true.
Proof. destruct text; [discriminate | reflexivity]. Qed.

End JsonFacts.

(** ** What a call of [getPhotos] and a round of effects leave alone *)
Section Frame.

Variable K : option jsstring.

Lemma changed_same {A} `{EqDecision A} (f : State -> A) a b :
  f a = f b -> changed f a b = false.
Proof. intros E. unfold changed. rewrite bool_decide_eq_true_2; auto. Qed.

Lemma changed_diff {A} `{EqDecision A} (f : State -> A) a b :
  f a <> f b -> changed f a b = true.
Proof. intros E. unfold changed. rewrite bool_decide_eq_false_2; auto. Qed.

Lemma changed_true {A} `{EqDecision A} (f : State -> A) a b :
  changed f a b = true -> f a <> f b.
Proof.
  unfold changed. intros E Heq. rewrite bool_decide_eq_true_2 in E; auto.
  discriminate.
Qed.

Lemma changed_false {A} `{EqDecision A} (f : State -> A) a b :
  changed f a b = false -> f a = f b.
Proof.
  unfold changed. intros E. destruct (decide (f a = f b)); [assumption|].
  rewrite bool_decide_eq_false_2 in E; auto. discriminate.
Qed.

Ltac frame := unfold getPhotos; repeat case_match; reflexivity.

Lemma getPhotos_query dq m n r s : query (getPhotos K dq m n r s) = query s.
Proof. frame. Qed.
Lemma getPhotos_history dq m n r s : history (getPhotos K dq m n r s) = history s.
Proof. frame. Qed.
Lemma getPhotos_mode dq m n r s : mode (getPhotos K dq m n r s) = mode s.
Proof. frame. Qed.
Lemma getPhotos_debouncedQuery dq m n r s :
  debouncedQuery (getPhotos K dq m n r s) = debouncedQuery s.
Proof. frame. Qed.
Lemma getPhotos_page dq m n r s : page (getPhotos K dq m n r s) = page s.
Proof. frame. Qed.
Lemma getPhotos_timer dq m n r s : timer (getPhotos K dq m n r s) = timer s.
Proof. frame. Qed.
Lemma getPhotos_localStorage dq m n r s :
  localStorage (getPhotos K dq m n r s) = localStorage s.
Proof. frame. Qed.
Lemma getPhotos_cache dq m n r s : cache (getPhotos K dq m n r s) = cache s.
Proof. frame. Qed.
Lemma getPhotos_observedLoading dq m n r s :
  observedLoading (getPhotos K dq m n r s) = observedLoading s.
Proof. frame. Qed.
Lemma getPhotos_selected dq m n r s : selected (getPhotos K dq m n r s) = selected s.
Proof. frame. Qed.

Ltac effects_frame :=
  unfold effects, effect_debounce, effect_persist, effect_reset,
    effect_observe, effect_page;
  repeat case_match; cbn;
  rewrite ?getPhotos_query, ?getPhotos_history, ?getPhotos_mode,
    ?getPhotos_debouncedQuery, ?getPhotos_page, ?getPhotos_timer,
    ?getPhotos_localStorage, ?getPhotos_cache, ?getPhotos_observedLoading,
    ?getPhotos_selected; cbn;
  rewrite ?getPhotos_query, ?getPhotos_history, ?getPhotos_mode,
    ?getPhotos_debouncedQuery, ?getPhotos_page, ?getPhotos_timer,
    ?getPhotos_localStorage, ?getPhotos_cache, ?getPhotos_observedLoading,
    ?getPhotos_selected; cbn; auto.

Lemma effects_query prev cur : query (effects K prev cur) = query cur.
Proof. effects_frame. Qed.
Lemma effects_history prev cur : history (effects K prev cur) = history cur.
Proof. effects_frame. Qed.
Lemma effects_mode prev cur : mode (effects K prev cur) = mode cur.
Proof. effects_frame. Qed.
Lemma effects_debouncedQuery prev cur :
  debouncedQuery (effects K prev cur) = debouncedQuery cur.
Proof. effects_frame. Qed.
Lemma effects_cache prev cur : cache (effects K prev cur) = cache cur.
Proof. effects_frame. Qed.
Lemma effects_selected prev cur : selected (effects K prev cur) = selected cur.
Proof. effects_frame. Qed.

Lemma effects_page prev cur :
  page (effects K prev cur)
  = if feed_changed prev cur then 1%Z else page cur.
Proof. effects_frame. Qed.

Lemma effects_timer prev cur :
  timer (effects K prev cur)
  = if changed query prev cur then Some (500, query cur) else timer cur.
Proof. effects_frame. Qed.

Lemma effects_localStorage prev cur :
  localStorage (effects K prev cur)
  = if changed history prev cur
    then <[storage_key := Json.stringify (history cur)]> (localStorage cur)
    else localStorage cur.
Proof. effects_frame. Qed.

Lemma effects_observedLoading prev cur :
  observedLoading (effects K prev cur)
  = if changed loading prev cur then loading cur else observedLoading cur.
Proof. effects_frame. Qed.

(** With no dependency changed, no effect runs. *)
Lemma effects_idle prev cur :
  query prev = query cur -> history prev = history cur ->
  mode prev = mode cur -> debouncedQuery prev = debouncedQuery cur ->
  loading prev = loading cur -> page prev = page cur ->
  effects K prev cur = cur.
Proof.
  intros. unfold effects, feed_changed.
  rewrite !changed_same by assumption. reflexivity.
Qed.

(** The second round of a commit can only run the observer effect, and a
    third round has nothing to do: the fuel of [commit] is enough. *)
Lemma effects_second prev cur :
  effects K cur (effects K prev cur) = resubscribe cur (effects K prev cur).
Proof.
  set (next := effects K prev cur).
  assert (Hq : query cur = query next) by (symmetry; apply effects_query).
  assert (Hh : history cur = history next) by (symmetry; apply effects_history).
  assert (Hm : mode cur = mode next) by (symmetry; apply effects_mode).
  assert (Hd : debouncedQuery cur = debouncedQuery next)
    by (symmetry; apply effects_debouncedQuery).
  assert (Hp : page next = page cur \/ page next = 1%Z).
  { unfold next. rewrite effects_page. destruct (feed_changed prev cur); auto. }
  unfold effects at 1, feed_changed, resubscribe.
  rewrite (changed_same query), (changed_same history), (changed_same mode),
    (changed_same debouncedQuery) by assumption.
  cbn [orb].
  assert (Hpage : forall s, (if changed page cur next || false
                             then effect_page K next s else s) = s).
  { intros s. destruct (changed page cur next) eqn:E; [|reflexivity].
    apply changed_true in E. cbn [orb]. unfold effect_page.
    destruct Hp as [Hp | Hp]; [congruence|]. rewrite Hp. reflexivity. }
  rewrite Hpage. reflexivity.
Qed.

Lemma resubscribe_same_deps cur next :
  same_deps next (resubscribe cur next) = true.
Proof.
  unfold resubscribe, same_deps, feed_changed.
  destruct (changed loading cur next); cbn;
    rewrite !changed_same by reflexivity; reflexivity.
Qed.

Lemma commit_spec prev cur :
  commit K prev cur = resubscribe cur (effects K prev cur).
Proof.
  unfold commit. cbn [rerender].
  destruct (same_deps cur (effects K prev cur)) eqn:Hs.
  - unfold resubscribe.
    unfold same_deps in Hs. apply negb_true_iff in Hs.
    destruct (changed loading cur (effects K prev cur)); [|reflexivity].
    rewrite !orb_true_r in Hs. cbn in Hs. rewrite ?orb_true_r in Hs. discriminate.
  - rewrite effects_second, resubscribe_same_deps. reflexivity.
Qed.

Lemma commit_fuel (n : nat) prev cur :
  rerender K (3 + n)%nat prev cur = commit K prev cur.
Proof.
  rewrite commit_spec. cbn [rerender Nat.add].
  destruct (same_deps cur (effects K prev cur)) eqn:Hs.
  - unfold resubscribe.
    unfold same_deps in Hs. apply negb_true_iff in Hs.
    destruct (changed loading cur (effects K prev cur)); [|reflexivity].
    rewrite !orb_true_r in Hs. cbn in Hs. rewrite ?orb_true_r in Hs. discriminate.
  - rewrite effects_second, resubscribe_same_deps. reflexivity.
Qed.

End Frame.

(** ** What a commit does to each part of the state *)
Section Commit.

Variable K : option jsstring.

Lemma commit_query prev cur : query (commit K prev cur) = query cur.
Proof.
  rewrite commit_spec. unfold resubscribe. case_match; cbn; apply effects_query.
Qed.

Lemma commit_history prev cur : history (commit K prev cur) = history cur.
Proof.
  rewrite commit_spec. unfold resubscribe. case_match; cbn; apply effects_history.
Qed.

Lemma commit_mode prev cur : mode (commit K prev cur) = mode cur.
Proof.
  rewrite commit_spec. unfold resubscribe. case_match; cbn; apply effects_mode.
Qed.

Lemma commit_debouncedQuery prev cur :
  debouncedQuery (commit K prev cur) = debouncedQuery cur.
Proof.
  rewrite commit_spec. unfold resubscribe.
  case_match; cbn; apply effects_debouncedQuery.
Qed.

Lemma commit_cache prev cur : cache (commit K prev cur) = cache cur.
Proof.
  rewrite commit_spec. unfold resubscribe. case_match; cbn; apply effects_cache.
Qed.

Lemma commit_page prev cur :
  page (commit K prev cur) = if feed_changed prev cur then 1%Z else page cur.
Proof.
  rewrite commit_spec. unfold resubscribe. case_match; cbn; apply effects_page.
Qed.

Lemma commit_timer prev cur :
  timer (commit K prev cur)
  = if changed query prev cur then Some (500, query cur) else timer cur.
Proof.
  rewrite commit_spec. unfold resubscribe. case_match; cbn; apply effects_timer.
Qed.

Lemma commit_localStorage prev cur :
  localStorage (commit K prev cur)
  = if changed history prev cur
    then <[storage_key := Json.stringify (history cur)]> (localStorage cur)
    else localStorage cur.
Proof.
  rewrite commit_spec. unfold resubscribe.
  case_match; cbn; apply effects_localStorage.
Qed.

Lemma commit_photos prev cur :
  photos (commit K prev cur) = photos (effects K prev cur).
Proof. rewrite commit_spec. unfold resubscribe. case_match; reflexivity. Qed.

Lemma commit_loading prev cur :
  loading (commit K prev cur) = loading (effects K prev cur).
Proof. rewrite commit_spec. unfold resubscribe. case_match; reflexivity. Qed.

Lemma commit_error prev cur :
  error (commit K prev cur) = error (effects K prev cur).
Proof. rewrite commit_spec. unfold resubscribe. case_match; reflexivity. Qed.

Lemma commit_inflight prev cur :
  inflight (commit K prev cur) = inflight (effects K prev cur).
Proof. rewrite commit_spec. unfold resubscribe. case_match; reflexivity. Qed.

Lemma commit_fetched prev cur :
  fetched (commit K prev cur) = fetched (effects K prev cur).
Proof. rewrite commit_spec. unfold resubscribe. case_match; reflexivity. Qed.

(** After a commit the observer callback closes over the current
    [loading]. *)
Lemma commit_observedLoading prev cur :
  observedLoading cur = loading prev ->
  observedLoading (commit K prev cur) = loading (commit K prev cur).
Proof.
  intros Hobs. rewrite commit_spec. unfold resubscribe.
  destruct (changed loading cur (effects K prev cur)) eqn:E; [reflexivity|].
  apply changed_false in E. rewrite <- E, effects_observedLoading.
  destruct (changed loading prev cur) eqn:E2; [reflexivity|].
  apply changed_false in E2. congruence.
Qed.

(** A commit in which only state outside every dependency list changed runs
    no effect. *)
Lemma commit_idle prev cur :
  query prev = query cur -> history prev = history cur ->
  mode prev = mode cur -> debouncedQuery prev = debouncedQuery cur ->
  loading prev = loading cur -> page prev = page cur ->
  commit K prev cur = cur.
Proof.
  intros. rewrite commit_spec, effects_idle by assumption.
  unfold resubscribe. rewrite changed_same; reflexivity.
Qed.

End Commit.

(** ** Invariants of the running component *)
Section Invariants.

Variable K : option jsstring.

Lemma observer_callback_frame entries : forall s,
  observedLoading (observer_callback entries s) = observedLoading s
  /\ localStorage (observer_callback entries s) = localStorage s
  /\ history (observer_callback entries s) = history s
  /\ loading (observer_callback entries s) = loading s
  /\ query (observer_callback entries s) = query s
  /\ mode (observer_callback entries s) = mode s
  /\ debouncedQuery (observer_callback entries s) = debouncedQuery s
  /\ photos (observer_callback entries s) = photos s
  /\ (page s <= page (observer_callback entries s))%Z.
Proof.
  induction entries as [|b rest IH]; intros s.
  - cbn. repeat split; lia.
  - unfold observer_callback. cbn [fold_left].
    fold (observer_callback rest
            (if b && negb (observedLoading s) then set_page (page s + 1) s else s)).
    destruct (IH (if b && negb (observedLoading s) then set_page (page s + 1) s else s))
      as (H1 & H2 & H3 & H4 & H5 & H6 & H7 & H8 & H9).
    rewrite H1, H2, H3, H4, H5, H6, H7, H8.
    destruct (b && negb (observedLoading s)); cbn in *; repeat split; lia.
Qed.

Lemma getPhotos_resume_frame p r s s' :
  getPhotos_resume p r s = Ok s' ->
  observedLoading s' = observedLoading s
  /\ localStorage s' = localStorage s
  /\ page s' = page s
  /\ query s' = query s
  /\ mode s' = mode s
  /\ debouncedQuery s' = debouncedQuery s
  /\ timer s' = timer s
  /\ inflight s' = inflight s
  /\ fetched s' = fetched s
  /\ loading s' = false.
Proof.
  unfold getPhotos_resume. intros H.
  repeat case_match; simplify_eq; cbn; repeat split.
Qed.

Lemma commit_sound prev cur :
  sound prev ->
  observedLoading cur = observedLoading prev ->
  localStorage cur = localStorage prev ->
  (1 <= page cur)%Z ->
  sound (commit K prev cur).
Proof.
  intros (Ho & Hp & Hs) Hobs Hls Hpage. repeat split.
  - apply commit_observedLoading. congruence.
  - rewrite commit_page. case_match; lia.
  - rewrite commit_localStorage, commit_history.
    destruct (changed history prev cur) eqn:E.
    + apply lookup_insert_eq.
    + apply changed_false in E. rewrite Hls, <- E. exact Hs.
Qed.

Lemma step_sound e s s' : sound s -> step K e s = Ok s' -> sound s'.
Proof.
  intros Hs Hstep. pose proof Hs as (Ho & Hp & Hl).
  destruct e; cbn in Hstep.
  - simplify_eq. apply commit_sound; auto.
  - simplify_eq. apply commit_sound; auto.
  - simplify_eq. apply commit_sound; auto.
  - simplify_eq. apply commit_sound; auto.
  - simplify_eq. apply commit_sound; auto.
  - simplify_eq. unfold tick. destruct (timer s) as [[remaining q]|]; [|assumption].
    destruct (ms <? remaining); [exact Hs|]. apply commit_sound; auto.
  - simplify_eq.
    destruct (observer_callback_frame entries s) as (H1 & H2 & _ & _ & _ & _ & _ & _ & H9).
    apply commit_sound; auto. lia.
  - destruct (inflight s !! i) as [p|] eqn:Ei; [|by simplify_eq].
    destruct (getPhotos_resume p r (set_inflight (delete i (inflight s)) s))
      as [t|] eqn:Er; cbv beta iota delta [bind] in Hstep; [|discriminate].
    injection Hstep as <-.
    apply getPhotos_resume_frame in Er as (H1 & H2 & H3 & _).
    apply commit_sound; auto. rewrite H3. exact Hp.
Qed.

Lemma mount_sound ls s : mount K ls = Ok s -> sound s.
Proof.
  unfold mount. intros H.
  destruct (effect_restore (initial ls) (effect_debounce (initial ls) (initial ls)))
    as [t|] eqn:Er; cbv beta iota delta [bind] in H; [|discriminate].
  injection H as <-.
  assert (Ht : localStorage t = ls /\ observedLoading t = false
               /\ page t = 1%Z /\ loading t = false).
  { unfold effect_restore in Er. cbn in Er. repeat case_match; simplify_eq; auto. }
  destruct Ht as (Hls & Hobs & Hpage & Hload).
  set (cur := initial ls) in *.
  match goal with |- sound (commit K cur ?x) => set (t4 := x) end.
  assert (H4 : observedLoading t4 = false /\ page t4 = 1%Z
               /\ history t4 = history t
               /\ localStorage t4 = <[storage_key := Json.stringify []]> ls).
  { unfold t4, effect_page, effect_observe, effect_reset, effect_persist. cbn.
    rewrite getPhotos_page, getPhotos_history, getPhotos_localStorage. cbn.
    rewrite Hls. auto. }
  destruct H4 as (Ho4 & Hp4 & Hh4 & Hl4).
  repeat split.
  - apply commit_observedLoading. exact Ho4.
  - rewrite commit_page. case_match; lia.
  - rewrite commit_localStorage, commit_history.
    destruct (changed history cur t4) eqn:E.
    + apply lookup_insert_eq.
    + apply changed_false in E. rewrite Hl4, <- E. apply lookup_insert_eq.
Qed.

Lemma reachable_sound s : reachable K s -> sound s.
Proof.
  induction 1 as [ls s Hm | e s s' _ IH Hstep].
  - eapply mount_sound; eassumption.
  - eapply step_sound; eassumption.
Qed.

(** Each intersecting entry adds one to the page counter while the
    callback sees no load in progress, and none does while it sees one. *)
Lemma observer_callback_page entries : forall s,
  page (observer_callback entries s)
  = if observedLoading s then page s
    else (page s + Z.of_nat (length (filter (fun b => b = true) entries)))%Z.
Proof.
  induction entries as [|b rest IH]; intros s.
  - cbn. destruct (observedLoading s); lia.
  - unfold observer_callback. cbn [fold_left].
    fold (observer_callback rest
            (if b && negb (observedLoading s) then set_page (page s + 1) s else s)).
    rewrite IH.
    destruct b, (observedLoading s) eqn:E; cbn [andb negb];
      rewrite ?filter_cons_True, ?filter_cons_False by (auto; discriminate);
      cbn [observedLoading set_page page length]; rewrite ?E; lia.
Qed.

End Invariants.

(** ** The two ways a call of [getPhotos] with a key goes *)
Section Calls.

Variable K : option jsstring.

Lemma getPhotos_hit dq m n rep s hit :
  has_key K = true ->
  cachedPage (cache s) (cacheKey dq m) n = Some hit ->
  getPhotos K dq m n rep s
  = set_photos (if rep then hit else photos s ++ hit) s.
Proof. intros HK Hc. unfold getPhotos. rewrite HK, Hc. reflexivity. Qed.

Lemma getPhotos_miss dq m n rep s :
  has_key K = true ->
  cachedPage (cache s) (cacheKey dq m) n = None ->
  let p := {| p_debouncedQuery := dq; p_mode := m; p_pageNum := n;
              p_replace := rep |} in
  getPhotos K dq m n rep s
  = set_inflight (inflight s ++ [p])
      (set_fetched (fetched s ++ [request_for K p])
         (set_error None (set_loading true s))).
Proof. intros HK Hc. unfold getPhotos. rewrite HK, Hc. reflexivity. Qed.

(** A call suspends at most once, on the call of [fetch] it logs. *)
Lemma getPhotos_inflight dq m n rep s :
  inflight (getPhotos K dq m n rep s) = inflight s
  \/ inflight (getPhotos K dq m n rep s)
     = inflight s ++ [{| p_debouncedQuery := dq; p_mode := m; p_pageNum := n;
                         p_replace := rep |}].
Proof. unfold getPhotos. repeat case_match; cbn; auto. Qed.

Lemma getPhotos_fetched dq m n rep s :
  fetched (getPhotos K dq m n rep s) = fetched s
  \/ fetched (getPhotos K dq m n rep s)
     = fetched s ++ [request_for K {| p_debouncedQuery := dq; p_mode := m;
                                     p_pageNum := n; p_replace := rep |}].
Proof. unfold getPhotos. repeat case_match; cbn; auto. Qed.

Lemma getPhotos_appends dq m n s :
  exists l, photos (getPhotos K dq m n false s) = photos s ++ l.
Proof.
  unfold getPhotos. repeat case_match; cbn; eauto; exists []; by rewrite app_nil_r.
Qed.

(** When only [loading] changed among the dependencies, a commit does no
    more than let the observer effect run. *)
Lemma commit_quiet prev cur :
  query prev = query cur -> history prev = history cur ->
  mode prev = mode cur -> debouncedQuery prev = debouncedQuery cur ->
  page prev = page cur ->
  commit K prev cur
  = if changed loading prev cur then effect_observe cur cur else cur.
Proof.
  intros Hq Hh Hm Hd Hp. rewrite commit_spec.
  assert (E : effects K prev cur
              = if changed loading prev cur then effect_observe cur cur else cur).
  { unfold effects, feed_changed.
    rewrite (changed_same query), (changed_same history), (changed_same mode),
      (changed_same debouncedQuery), (changed_same page) by assumption.
    reflexivity. }
  rewrite E. unfold resubscribe.
  destruct (changed loading prev cur); rewrite changed_same; reflexivity.
Qed.

End Calls.

(** ** The claims *)

(** C9. Without an API access key [getPhotos] sets the error to
    "No API key found." and returns: no request is made, none is left
    suspended, and the photo list, the page counter, the loading flag, the
    cache and the history are as they were. *)
Theorem getPhotos_without_key K dq m n rep s (HK : has_key K = false) :
  let s' := getPhotos K dq m n rep s in
  error s' = Some (js "No API key found.")
  /\ fetched s' = fetched s /\ inflight s' = inflight s
  /\ photos s' = photos s /\ page s' = page s /\ loading s' = loading s
  /\ cache s' = cache s /\ history s' = history s
  /\ s' = set_error (Some (js "No API key found.")) s.
Proof.
  unfold getPhotos. rewrite HK. cbn. repeat split.
Qed.

Lemma getPhotos_without_key_witness :
  has_key None = false
  /\ error (getPhotos None [] popular 1 true (initial ∅))
     = Some (js "No API key found.")
  /\ fetched (getPhotos None [] popular 1 true (initial ∅)) = [].
Proof.
  split; [reflexivity|].
  pose proof (getPhotos_without_key None [] popular 1%Z true (initial ∅) eq_refl)
    as (H1 & H2 & _).
  split; [exact H1 | exact H2].
Defined.

(** C3. When [fetch] or [res.json()] throws, the one [catch] sets the error
    to the exception's message, or to "Something went wrong" when the
    message is empty, [finally] resets the loading flag, the photo list and
    the cache stay as they were, and nothing is fetched again; a call of
    [getPhotos] calls [fetch] at most once. *)
Theorem getPhotos_failure_handling K i p e r s
    (Hi : inflight s !! i = Some p)
    (Hr : r = FetchThrows e \/ r = JsonThrows e) :
  (exists s',
      step K (Respond i r) s = Ok s'
      /\ error s' = Some (match message e with
                          | [] => js "Something went wrong"
                          | _ :: _ => message e
                          end)
      /\ loading s' = false
      /\ photos s' = photos s /\ cache s' = cache s /\ history s' = history s
      /\ fetched s' = fetched s /\ inflight s' = delete i (inflight s))
  /\ (forall dq m n rep t,
        length (fetched (getPhotos K dq m n rep t)) <= S (length (fetched t)))%nat.
Proof.
  split.
  - set (msg := match message e with
                 | [] => js "Something went wrong"
                 | _ :: _ => message e
                 end).
    set (t := set_loading false
                (set_error (Some msg) (set_inflight (delete i (inflight s)) s))).
    assert (Herr : str_or (message e) (js "Something went wrong") = msg)
      by (unfold str_or, msg; destruct (message e); reflexivity).
    assert (Hres : getPhotos_resume p r (set_inflight (delete i (inflight s)) s) = Ok t)
      by (destruct Hr as [-> | ->]; cbn [getPhotos_resume]; rewrite Herr; reflexivity).
    exists (commit K s t). split.
    { cbn [step]. rewrite Hi, Hres. reflexivity. }
    rewrite commit_quiet by reflexivity.
    destruct (changed loading s t); repeat (split; [reflexivity|]); reflexivity.
  - intros dq m n rep t.
    destruct (getPhotos_fetched K dq m n rep t) as [-> | ->]; [lia|].
    rewrite length_app. cbn. lia.
Qed.

Lemma getPhotos_failure_handling_witness :
  inflight Demo.mounted !! 0%nat = Some Demo.first_call
  /\ exists s',
      step Demo.K (Respond 0 (FetchThrows {| message := [] |})) Demo.mounted = Ok s'
      /\ error s' = Some (js "Something went wrong")
      /\ loading s' = false
      /\ photos s' = photos Demo.mounted.
Proof.
  split; [reflexivity|].
  destruct (getPhotos_failure_handling Demo.K 0 Demo.first_call
              {| message := [] |} (FetchThrows {| message := [] |}) Demo.mounted
              eq_refl (or_introl eq_refl))
    as [(s' & H1 & H2 & H3 & H4 & _) _].
  exists s'. repeat split; assumption.
Defined.

(** ** The search history *)
Section History.

Variable K : option jsstring.

Lemma newHistory_head dq prev : head (newHistory dq prev) = Some dq.
Proof. reflexivity. Qed.

Lemma newHistory_length dq prev : (length (newHistory dq prev) <= 5)%nat.
Proof. unfold newHistory. rewrite length_take. lia. Qed.

Lemma newHistory_NoDup dq prev : NoDup prev -> NoDup (newHistory dq prev).
Proof.
  intros Hnd. unfold newHistory.
  eapply sublist_NoDup; [|apply sublist_take].
  apply NoDup_cons. split.
  - rewrite list_elem_of_filter. intros [Hne _]. congruence.
  - apply NoDup_filter. exact Hnd.
Qed.

Lemma newHistory_ok dq prev : history_ok prev -> history_ok (newHistory dq prev).
Proof.
  intros [Hnd _]. split; [apply newHistory_NoDup, Hnd | apply newHistory_length].
Qed.

(** The only write to the history after mounting is the one of
    [getPhotos]. *)
Lemma getPhotos_resume_history p r s s' :
  getPhotos_resume p r s = Ok s' ->
  history s' = history s
  \/ history s' = newHistory (p_debouncedQuery p) (history s).
Proof.
  unfold getPhotos_resume. intros H.
  repeat case_match; simplify_eq; cbn; auto.
Qed.

Lemma step_history e s s' :
  step K e s = Ok s' ->
  history s' = history s \/ exists dq, history s' = newHistory dq (history s).
Proof.
  intros Hstep. destruct e; cbn [step] in Hstep.
  - injection Hstep as <-. rewrite commit_history. auto.
  - injection Hstep as <-. rewrite commit_history. auto.
  - injection Hstep as <-. rewrite commit_history. auto.
  - injection Hstep as <-. rewrite commit_history. auto.
  - injection Hstep as <-. rewrite commit_history. auto.
  - injection Hstep as <-. unfold tick.
    destruct (timer s) as [[remaining q]|]; [|auto].
    destruct (ms <? remaining); [auto|]. rewrite commit_history. auto.
  - injection Hstep as <-. rewrite commit_history.
    destruct (observer_callback_frame entries s) as (_ & _ & H & _). auto.
  - destruct (inflight s !! i) as [p|]; [|injection Hstep as <-; auto].
    destruct (getPhotos_resume p r (set_inflight (delete i (inflight s)) s))
      as [t|] eqn:Er; cbv beta iota delta [bind] in Hstep; [|discriminate].
    injection Hstep as <-. rewrite commit_history.
    apply getPhotos_resume_history in Er as [-> | ->]; eauto.
Qed.

Lemma run_history_ok es : forall s s',
  history_ok (history s) -> run K es s = Ok s' -> history_ok (history s').
Proof.
  induction es as [|e rest IH]; intros s s' Hok Hrun; cbn [run] in Hrun.
  - injection Hrun as <-. exact Hok.
  - destruct (step K e s) as [t|] eqn:Est; cbv beta iota delta [bind] in Hrun;
      [|discriminate].
    apply (IH t s'); [|exact Hrun].
    destruct (step_history e s t Est) as [-> | [dq ->]];
      [assumption | apply newHistory_ok; assumption].
Qed.

(** Mounting leaves the history empty or sets it to what the stored text
    reads as. *)
Lemma mount_history ls s :
  mount K ls = Ok s ->
  history s = []
  \/ exists stored, ls !! storage_key = Some stored
                    /\ Json.parse stored = Some (history s).
Proof.
  unfold mount. intros H.
  destruct (effect_restore (initial ls) (effect_debounce (initial ls) (initial ls)))
    as [t|] eqn:Er; cbv beta iota delta [bind] in H; [|discriminate].
  injection H as <-.
  rewrite commit_history. unfold effect_page, effect_observe, effect_reset.
  cbn [page initial Z.ltb Z.compare Pos.compare Pos.compare_cont].
  cbn [history set_observedLoading]. rewrite getPhotos_history.
  cbn [history set_page set_photos effect_persist set_localStorage].
  unfold effect_restore in Er.
  cbn [localStorage effect_debounce set_timer initial] in Er.
  destruct (ls !! storage_key) as [stored|] eqn:Els;
    [|injection Er as <-; left; reflexivity].
  destruct (truthy stored); [|injection Er as <-; left; reflexivity].
  destruct (Json.parse stored) as [h|] eqn:Ep; [|discriminate].
  injection Er as <-. right. exists stored. split; [reflexivity | exact Ep].
Qed.

Lemma mount_history_ok ls s :
  own_storage ls -> mount K ls = Ok s -> history_ok (history s).
Proof.
  intros Hown Hm.
  destruct (mount_history ls s Hm) as [-> | (stored & Hs & Hp)].
  - split; [constructor | cbn; lia].
  - destruct Hown as [Hnone | (h & Hok & Hsome)]; [congruence|].
    rewrite Hsome in Hs. injection Hs as <-.
    rewrite JsonFacts.parse_stringify in Hp. injection Hp as <-. exact Hok.
Qed.

End History.

(** The answer to a search that replaces the list puts the query into the
    history. *)
Lemma respond_search_history K i p data results s :
  inflight s !! i = Some p -> p_replace p = true -> p_debouncedQuery p <> [] ->
  results_of (p_debouncedQuery p) data = Some results ->
  exists s',
    step K (Respond i (Parsed data)) s = Ok s'
    /\ history s' = newHistory (p_debouncedQuery p) (history s).
Proof.
  intros Hi Hrep Hq Hres.
  cbn [step]. rewrite Hi. unfold getPhotos_resume. rewrite Hres, Hrep.
  destruct (p_debouncedQuery p) as [|ch rest] eqn:Edq; [congruence|].
  cbn [truthy andb bind]. eexists. split; [reflexivity|].
  rewrite commit_history. reflexivity.
Qed.

(** Only an answer changes the history. *)
Lemma step_history_unanswered K e s s' :
  (forall i r, e <> Respond i r) -> step K e s = Ok s' -> history s' = history s.
Proof.
  intros He Hstep. destruct e; cbn [step] in Hstep;
    try (injection Hstep as <-; rewrite commit_history; reflexivity).
  - injection Hstep as <-. unfold tick.
    destruct (timer s) as [[remaining q]|]; [|reflexivity].
    destruct (ms <? remaining); [reflexivity|]. rewrite commit_history. reflexivity.
  - injection Hstep as <-. rewrite commit_history.
    destruct (observer_callback_frame entries s) as (_ & _ & H & _). exact H.
  - destruct (He i r eq_refl).
Qed.




(** ** The effects of a change of feed and of a change of page *)
Section Loads.

Variable K : option jsstring.

Lemma effects_feed prev cur :
  feed_changed prev cur = true ->
  history prev = history cur -> loading prev = loading cur ->
  effects K prev cur
  = effect_page K cur
      (effect_reset K cur
         (if changed query prev cur then effect_debounce cur cur else cur)).
Proof.
  intros Hf Hh Hl. unfold effects.
  rewrite Hf, (changed_same history), (changed_same loading), orb_true_r
    by assumption.
  reflexivity.
Qed.

Lemma effects_page_only prev cur :
  query prev = query cur -> history prev = history cur ->
  mode prev = mode cur -> debouncedQuery prev = debouncedQuery cur ->
  loading prev = loading cur -> page prev <> page cur ->
  effects K prev cur = effect_page K cur cur.
Proof.
  intros Hq Hh Hm Hd Hl Hp. unfold effects, feed_changed.
  rewrite (changed_same query), (changed_same history), (changed_same mode),
    (changed_same debouncedQuery), (changed_same loading), (changed_diff page)
    by assumption.
  reflexivity.
Qed.

Lemma getPhotos_keeps dq m n rep t :
  (forall p, p ∈ inflight t -> p ∈ inflight (getPhotos K dq m n rep t))
  /\ (forall r, r ∈ fetched t -> r ∈ fetched (getPhotos K dq m n rep t))
  /\ (loading t = true -> loading (getPhotos K dq m n rep t) = true).
Proof.
  split; [|split].
  - intros p Hp. destruct (getPhotos_inflight K dq m n rep t) as [-> | ->];
      [assumption | apply elem_of_app; auto].
  - intros r Hr. destruct (getPhotos_fetched K dq m n rep t) as [-> | ->];
      [assumption | apply elem_of_app; auto].
  - intros Hl. unfold getPhotos. repeat case_match; cbn; auto.
Qed.

Lemma effect_page_keeps cur t :
  (exists l, photos (effect_page K cur t) = photos t ++ l)
  /\ (forall p, p ∈ inflight t -> p ∈ inflight (effect_page K cur t))
  /\ (forall r, r ∈ fetched t -> r ∈ fetched (effect_page K cur t))
  /\ (loading t = true -> loading (effect_page K cur t) = true).
Proof.
  unfold effect_page. destruct (1 <? page cur)%Z.
  - split; [apply getPhotos_appends | apply getPhotos_keeps].
  - split; [exists []; by rewrite app_nil_r | auto].
Qed.

Lemma effect_page_inflight cur t :
  exists l, inflight (effect_page K cur t) = inflight t ++ l
            /\ replacing l = [].
Proof.
  unfold effect_page. destruct (1 <? page cur)%Z.
  - destruct (getPhotos_inflight K (debouncedQuery cur) (mode cur) (page cur) false t)
      as [-> | ->].
    + exists []. by rewrite app_nil_r.
    + eexists. split; reflexivity.
  - exists []. by rewrite app_nil_r.
Qed.

Lemma effect_reset_inflight cur t :
  exists l, inflight (effect_reset K cur t) = inflight t ++ l
            /\ (length l <= 1)%nat.
Proof.
  unfold effect_reset.
  destruct (getPhotos_inflight K (debouncedQuery cur) (mode cur) 1 true
              (set_page 1 (set_photos [] t))) as [-> | ->].
  - exists []. rewrite app_nil_r. split; [reflexivity | cbn; lia].
  - eexists. split; [reflexivity | cbn; lia].
Qed.

End Loads.





(** C6. The text of a history list reads back as that list; in every state
    of the running component [localStorage] holds, under "search-history",
    the JSON text of the current history; and on mounting, a stored text
    that reads as a list becomes the history, and with nothing stored the
    history is empty. *)
Theorem history_is_persisted K :
  (forall l, Json.parse (Json.stringify l) = Some l)
  /\ storage_key = js "search-history"
  /\ (forall s,
        reachable K s ->
        localStorage s !! storage_key = Some (Json.stringify (history s)))
  /\ (forall prev cur,
        history prev <> history cur ->
        localStorage (commit K prev cur) !! storage_key
        = Some (Json.stringify (history cur)))
  /\ (forall ls stored h,
        ls !! storage_key = Some stored ->
        Json.parse stored = Some h ->
        exists s, mount K ls = Ok s /\ history s = h)
  /\ (forall ls,
        ls !! storage_key = None ->
        exists s, mount K ls = Ok s /\ history s = []).
Proof.
  split; [apply JsonFacts.parse_stringify|].
  split; [reflexivity|].
  split; [intros s Hr; apply (reachable_sound K s Hr)|].
  split.
  { intros prev cur Hne.
    rewrite commit_localStorage, (changed_diff history) by assumption.
    apply lookup_insert_eq. }
  split.
  - intros ls stored h Hs Hp. unfold mount.
    assert (Er : effect_restore (initial ls) (effect_debounce (initial ls) (initial ls))
                 = Ok (set_history h (effect_debounce (initial ls) (initial ls)))).
    { unfold effect_restore. cbn [localStorage effect_debounce set_timer initial].
      rewrite Hs, (JsonFacts.parse_nonempty stored h Hp), Hp. reflexivity. }
    rewrite Er. cbv beta iota delta [bind]. eexists. split; [reflexivity|].
    rewrite commit_history. unfold effect_page, effect_observe, effect_reset.
    cbn [page initial Z.ltb Z.compare Pos.compare Pos.compare_cont].
    cbn [history set_observedLoading]. rewrite getPhotos_history. reflexivity.
  - intros ls Hs. unfold mount.
    assert (Er : effect_restore (initial ls) (effect_debounce (initial ls) (initial ls))
                 = Ok (effect_debounce (initial ls) (initial ls))).
    { unfold effect_restore. cbn [localStorage effect_debounce set_timer initial].
      rewrite Hs. reflexivity. }
    rewrite Er. cbv beta iota delta [bind]. eexists. split; [reflexivity|].
    rewrite commit_history. unfold effect_page, effect_observe, effect_reset.
    cbn [page initial Z.ltb Z.compare Pos.compare Pos.compare_cont].
    cbn [history set_observedLoading]. rewrite getPhotos_history. reflexivity.
Qed.

Lemma history_is_persisted_witness :
  Demo.storage !! storage_key = Some (Json.stringify Demo.stored_terms)
  /\ Json.parse (Json.stringify Demo.stored_terms) = Some Demo.stored_terms
  /\ (exists s, mount Demo.K Demo.storage = Ok s /\ history s = Demo.stored_terms)
  /\ (exists s, mount Demo.K ∅ = Ok s /\ history s = [])
  /\ localStorage Demo.mounted !! storage_key
     = Some (Json.stringify (history Demo.mounted)).
Proof.
  destruct (history_is_persisted Demo.K) as (Hrt & _ & Hinv & _ & Hload & Hnone).
  assert (Hs : Demo.storage !! storage_key = Some (Json.stringify Demo.stored_terms))
    by (vm_compute; reflexivity).
  split; [exact Hs|]. split; [apply Hrt|].
  split; [exact (Hload Demo.storage _ Demo.stored_terms Hs (Hrt _))|].
  split; [apply Hnone; vm_compute; reflexivity|].
  apply Hinv. apply (reachable_mount Demo.K ∅). vm_compute; reflexivity.
Defined.

(** C7. Nothing ties an answer to the feed on screen: the popular feed is
    being fetched, the mode changes to latest, the latest answer arrives
    first and is shown, and the popular answer that arrives after it
    replaces the list and enters the cache while the mode is latest. *)
Theorem stale_response_is_committed :
  exists s1 s2,
    inflight Demo.mounted = [Demo.first_call]
    /\ run Demo.K [SetMode latest; Respond 1 (Parsed (DArray [Demo.b]))] Demo.mounted
       = Ok s1
    /\ mode s1 = latest /\ photos s1 = [Demo.b]
    /\ inflight s1 = [Demo.first_call]
    /\ step Demo.K (Respond 0 (Parsed (DArray [Demo.a]))) s1 = Ok s2
    /\ mode s2 = latest /\ debouncedQuery s2 = []
    /\ photos s2 = [Demo.a]
    /\ cachedPage (cache s2) (cacheKey [] popular) 1 = Some [Demo.a]
    /\ cachedPage (cache s2) (cacheKey [] latest) 1 = Some [Demo.b].
Proof.
  eexists. eexists.
  split; [vm_compute; reflexivity|].
  split; [vm_compute; reflexivity|].
  repeat (split; [vm_compute; reflexivity|]).
  vm_compute; reflexivity.
Qed.

(** The keys of the cache: two searches share a key only when they are the
    same search, two feeds only when they are the same feed, and a search
    shares its key with a feed exactly when its query is the name of the
    feed's mode. *)
Lemma cacheKey_shared dq1 m1 dq2 m2 :
  cacheKey dq1 m1 = cacheKey dq2 m2 <->
  match dq1, dq2 with
  | [], [] => m1 = m2
  | [], _ :: _ => dq2 = mode_text m1
  | _ :: _, [] => dq1 = mode_text m2
  | _ :: _, _ :: _ => dq1 = dq2
  end.
Proof.
  unfold cacheKey, str_or.
  destruct dq1, dq2; cbn [truthy]; try tauto; try (split; congruence).
  destruct m1, m2; split; try reflexivity; try discriminate.
Qed.

(** C1. A search and a feed meet in the cache: the search for "latest" has
    the cache key of the latest feed, so after the first page of the feed
    was fetched, the search for "latest" is served that page from the cache
    and no request goes to the search endpoint. *)
Theorem search_shares_key_with_feed :
  cacheKey (js "latest") latest = cacheKey [] latest
  /\ exists s,
      run Demo.K [SetMode latest; Respond 0 (Parsed (DArray [Demo.b]));
                  Change (js "latest"); Tick 500] Demo.idle = Ok s
      /\ debouncedQuery s = js "latest"
      /\ photos s = [Demo.b]
      /\ inflight s = []
      /\ fetched s
         = [ {| url := request_url [] popular 1; authorization := js "Client-ID demo-key" |};
             {| url := request_url [] latest 1; authorization := js "Client-ID demo-key" |} ].
Proof.
  split; [reflexivity|].
  eexists. split; [vm_compute; reflexivity|].
  repeat (split; [vm_compute; reflexivity|]).
  vm_compute; reflexivity.
Qed.

(** ** The debounce timer *)
Section Debounce.

Variable K : option jsstring.

Lemma run_app es1 es2 s :
  run K (es1 ++ es2) s = bind (run K es1 s) (run K es2).
Proof.
  revert s. induction es1 as [|e rest IH]; intros s; [reflexivity|].
  cbn [run app]. destruct (step K e s) as [t|why]; [apply IH | reflexivity].
Qed.

(** An edit that changes the input restarts the timer and does nothing
    else. *)
Lemma step_Change s v :
  v <> query s ->
  step K (Change v) s = Ok (set_timer (Some (500, v)) (set_query v s)).
Proof.
  intros Hne. cbn [step]. f_equal. rewrite commit_spec.
  assert (E : effects K s (set_query v s)
              = set_timer (Some (500, v)) (set_query v s)).
  { unfold effects, feed_changed.
    rewrite (changed_diff query), (changed_same history), (changed_same mode),
      (changed_same debouncedQuery), (changed_same loading), (changed_same page)
      by (cbn; auto).
    reflexivity. }
  rewrite E. unfold resubscribe. rewrite changed_same; reflexivity.
Qed.

Lemma tick_wait s remaining q ms :
  timer s = Some (remaining, q) -> ms < remaining ->
  tick K ms s = set_timer (Some (remaining - ms, q)) s.
Proof.
  intros Ht Hlt. unfold tick. rewrite Ht.
  destruct (N.ltb_spec ms remaining); [reflexivity | lia].
Qed.

Lemma tick_fire s remaining q ms :
  timer s = Some (remaining, q) -> remaining <= ms ->
  tick K ms s = commit K s (set_debouncedQuery (trim q) (set_timer None s)).
Proof.
  intros Ht Hle. unfold tick. rewrite Ht.
  destruct (N.ltb_spec ms remaining); [lia | reflexivity].
Qed.

Lemma typed_cons current e rest :
  typed current (e :: rest) = typed e.1 rest.
Proof.
  unfold typed. destruct rest as [|e2 rest]; [reflexivity|].
  cbn [fmap list_fmap]. rewrite last_cons_cons.
  destruct (last (e2.1 :: rest.*1)) eqn:E; [reflexivity|].
  apply last_None in E. discriminate.
Qed.

(** While the edits follow one another within the delay, the timer never
    runs: all that changes is the input and the timer. *)
Lemma run_typing edits : forall s,
  edits <> [] ->
  Forall (fun e => e.2 < 500) edits ->
  each_changes (query s) edits ->
  exists remaining,
    0 < remaining <= 500
    /\ run K (typing edits) s
       = Ok (set_timer (Some (remaining, typed (query s) edits))
               (set_query (typed (query s) edits) s)).
Proof.
  induction edits as [|e rest IH]; intros s Hne Hgap Hch; [congruence|].
  apply Forall_cons in Hgap as [Hg Hgap]. destruct Hch as [Hc Hch].
  rewrite typed_cons.
  change (typing (e :: rest)) with ([Change e.1; Tick e.2] ++ typing rest).
  rewrite run_app. cbn [run]. rewrite step_Change by assumption.
  cbv beta iota delta [bind]. cbn [step].
  rewrite (tick_wait _ 500 e.1) by (auto; reflexivity).
  cbv beta iota delta [bind].
  destruct rest as [|e2 rest].
  - exists (500 - e.2). split; [lia|]. reflexivity.
  - destruct (IH (set_timer (Some (500 - e.2, e.1))
                    (set_timer (Some (500, e.1)) (set_query e.1 s))))
      as (remaining & Hr & Hrun); [congruence | assumption | exact Hch |].
    exists remaining. split; [exact Hr|].
    rewrite Hrun. reflexivity.
Qed.

Lemma replacing_app l1 l2 : replacing (l1 ++ l2) = replacing l1 ++ replacing l2.
Proof. apply filter_app. Qed.

(** The timer ends: the debounced query becomes the trimmed value the timer
    closed over, and the reset effect, if it runs, starts at most one call
    that replaces the list. *)
Lemma tick_fire_spec s remaining q ms :
  timer s = Some (remaining, q) -> remaining <= ms ->
  let s' := tick K ms s in
  query s' = query s
  /\ debouncedQuery s' = trim q
  /\ timer s' = None
  /\ (length (replacing (inflight s')) <= S (length (replacing (inflight s))))%nat
  /\ (trim q = debouncedQuery s ->
      fetched s' = fetched s /\ inflight s' = inflight s /\ photos s' = photos s).
Proof.
  intros Ht Hle. cbv zeta. rewrite (tick_fire s remaining q ms Ht Hle).
  set (cur := set_debouncedQuery (trim q) (set_timer None s)).
  split; [rewrite commit_query; reflexivity|].
  split; [rewrite commit_debouncedQuery; reflexivity|].
  split; [rewrite commit_timer, changed_same; reflexivity|].
  split.
  - rewrite commit_inflight.
    destruct (decide (trim q = debouncedQuery s)) as [Heq | Hne].
    + rewrite effects_idle by (cbn; auto). change (inflight cur) with (inflight s). lia.
    + assert (Hf : feed_changed s cur = true).
      { unfold feed_changed. rewrite (changed_diff debouncedQuery), orb_true_r; auto. }
      rewrite (effects_feed K s cur Hf eq_refl eq_refl), (changed_same query)
        by reflexivity.
      destruct (effect_page_inflight K cur (effect_reset K cur cur))
        as (l2 & -> & Hl2).
      destruct (effect_reset_inflight K cur cur) as (l1 & -> & Hl1).
      rewrite !replacing_app, Hl2, app_nil_r, length_app.
      pose proof (length_filter (fun p => p_replace p = true) l1) as Hf1.
      change (inflight cur) with (inflight s). unfold replacing at 2. lia.
  - intros Heq. rewrite commit_idle by (cbn; auto). auto.
Qed.

End Debounce.




(** ** A rule for invariants

    A property of the state that the setters of the handlers, a call of
    [getPhotos] and the resumption of one keep holds in every state of the
    running component. *)
Section Rule.

Variable K : option jsstring.
Variable P : State -> Prop.

Hypothesis P_timer : forall v s, P s -> P (set_timer v s).
Hypothesis P_localStorage : forall h s,
  P s ->
  P (set_localStorage (<[storage_key := Json.stringify h]> (localStorage s)) s).
Hypothesis P_observedLoading : forall v s, P s -> P (set_observedLoading v s).
Hypothesis P_history : forall v s, P s -> P (set_history v s).
Hypothesis P_query : forall v s, P s -> P (set_query v s).
Hypothesis P_mode : forall v s, P s -> P (set_mode v s).
Hypothesis P_debouncedQuery : forall v s, P s -> P (set_debouncedQuery v s).
Hypothesis P_selected : forall v s, P s -> P (set_selected v s).
Hypothesis P_reset : forall s, P s -> P (set_page 1 (set_photos [] s)).
Hypothesis P_next : forall s, P s -> P (set_page (page s + 1) s).
Hypothesis P_getPhotos : forall dq m n r s, P s -> P (getPhotos K dq m n r s).
Hypothesis P_resume : forall i p r s s',
  P s -> inflight s !! i = Some p ->
  getPhotos_resume p r (set_inflight (delete i (inflight s)) s) = Ok s' -> P s'.

Lemma effects_keeps prev cur : P cur -> P (effects K prev cur).
Proof.
  intros H. unfold effects, effect_debounce, effect_persist, effect_reset,
    effect_observe, effect_page.
  repeat case_match; auto 10.
Qed.

Lemma commit_keeps prev cur : P cur -> P (commit K prev cur).
Proof.
  intros H. rewrite commit_spec. unfold resubscribe, effect_observe.
  case_match; auto using effects_keeps.
Qed.

Lemma observer_callback_keeps entries : forall s,
  P s -> P (observer_callback entries s).
Proof.
  induction entries as [|b rest IH]; intros s H; [exact H|].
  unfold observer_callback. cbn [fold_left].
  fold (observer_callback rest
          (if b && negb (observedLoading s) then set_page (page s + 1) s else s)).
  apply IH. case_match; auto.
Qed.

Lemma step_keeps e s s' : P s -> step K e s = Ok s' -> P s'.
Proof.
  intros H Hstep. destruct e; cbn [step] in Hstep.
  - injection Hstep as <-. apply commit_keeps; auto.
  - injection Hstep as <-. apply commit_keeps; auto.
  - injection Hstep as <-. apply commit_keeps. unfold handleHistoryClick. auto.
  - injection Hstep as <-. apply commit_keeps; auto.
  - injection Hstep as <-. apply commit_keeps; auto.
  - injection Hstep as <-. unfold tick.
    destruct (timer s) as [[remaining q]|]; [|exact H].
    destruct (ms <? remaining); [auto|]. apply commit_keeps; auto.
  - injection Hstep as <-. apply commit_keeps, observer_callback_keeps, H.
  - destruct (inflight s !! i) as [p|] eqn:Ei; [|injection Hstep as <-; exact H].
    destruct (getPhotos_resume p r (set_inflight (delete i (inflight s)) s))
      as [t|] eqn:Er; cbv beta iota delta [bind] in Hstep; [|discriminate].
    injection Hstep as <-. apply commit_keeps. eapply P_resume; eassumption.
Qed.

Lemma mount_keeps ls s : P (initial ls) -> mount K ls = Ok s -> P s.
Proof.
  unfold mount. intros P_initial H.
  destruct (effect_restore (initial ls) (effect_debounce (initial ls) (initial ls)))
    as [t|] eqn:Er; cbv beta iota delta [bind] in H; [|discriminate].
  injection H as <-.
  assert (Ht : P t).
  { unfold effect_restore, effect_debounce in Er.
    repeat case_match; simplify_eq; auto. }
  apply commit_keeps. unfold effect_page, effect_observe, effect_reset, effect_persist.
  case_match; auto 10.
Qed.

Lemma run_keeps es : forall s s', P s -> run K es s = Ok s' -> P s'.
Proof.
  induction es as [|e rest IH]; intros s s' H Hrun; cbn [run] in Hrun.
  - injection Hrun as <-. exact H.
  - destruct (step K e s) as [t|] eqn:Est; cbv beta iota delta [bind] in Hrun;
      [|discriminate].
    apply (IH t s'); [|exact Hrun]. eapply step_keeps; eassumption.
Qed.

Lemma reachable_keeps s : (forall ls, P (initial ls)) -> reachable K s -> P s.
Proof.
  intros P_initial. induction 1 as [ls s Hm | e s s' _ IH Hstep].
  - eapply mount_keeps; [apply P_initial | eassumption].
  - eapply step_keeps; eassumption.
Qed.

End Rule.

(** ** More invariants *)
Section MoreInvariants.

Variable K : option jsstring.

(** When neither the feed nor the page changed, no effect calls
    [getPhotos]. *)
Lemma commit_no_load prev cur :
  feed_changed prev cur = false -> page prev = page cur ->
  photos (commit K prev cur) = photos cur
  /\ loading (commit K prev cur) = loading cur
  /\ error (commit K prev cur) = error cur
  /\ inflight (commit K prev cur) = inflight cur
  /\ fetched (commit K prev cur) = fetched cur.
Proof.
  intros Hf Hp.
  rewrite commit_photos, commit_loading, commit_error, commit_inflight,
    commit_fetched.
  unfold effects. rewrite Hf, (changed_same page) by assumption. cbn [orb].
  unfold effect_debounce, effect_persist, effect_observe.
  repeat case_match; repeat split.
Qed.

Lemma observer_callback_blind entries : forall s,
  observedLoading s = true -> observer_callback entries s = s.
Proof.
  induction entries as [|b rest IH]; intros s H; [reflexivity|].
  unfold observer_callback. cbn [fold_left]. rewrite H, andb_false_r.
  apply (IH s H).
Qed.

Lemma observer_callback_none entries : forall s,
  Forall (fun b => b = false) entries -> observer_callback entries s = s.
Proof.
  induction entries as [|b rest IH]; intros s H; [reflexivity|].
  apply Forall_cons in H as [-> H].
  unfold observer_callback. cbn [fold_left andb]. apply (IH s H).
Qed.

Lemma observer_callback_timer entries s :
  timer (observer_callback entries s) = timer s.
Proof.
  apply (observer_callback_keeps (fun t => timer t = timer s)); [|reflexivity].
  intros t Ht. exact Ht.
Qed.

Lemma commit_timer_ok prev cur :
  timer_ok prev ->
  timer cur = timer prev \/ timer cur = None ->
  (query cur = query prev -> True) ->
  timer_ok (commit K prev cur).
Proof.
  intros Hok Ht _. unfold timer_ok. rewrite commit_timer, commit_query.
  destruct (changed query prev cur) eqn:E; [split; [reflexivity | lia]|].
  apply changed_false in E.
  destruct Ht as [Ht | Ht]; rewrite Ht; [|exact I].
  unfold timer_ok in Hok. rewrite <- E. exact Hok.
Qed.

Lemma step_timer_ok e s s' : timer_ok s -> step K e s = Ok s' -> timer_ok s'.
Proof.
  intros Hok Hstep. destruct e; cbn [step] in Hstep.
  - injection Hstep as <-. apply commit_timer_ok; auto.
  - injection Hstep as <-. apply commit_timer_ok; auto.
  - injection Hstep as <-. apply commit_timer_ok; auto.
  - injection Hstep as <-. apply commit_timer_ok; auto.
  - injection Hstep as <-. apply commit_timer_ok; auto.
  - injection Hstep as <-. unfold tick.
    destruct (timer s) as [[remaining q]|] eqn:Et; [|exact Hok].
    destruct (N.ltb_spec ms remaining).
    + unfold timer_ok in *. rewrite Et in Hok. cbn. destruct Hok. split; [assumption | lia].
    + apply commit_timer_ok; auto.
  - injection Hstep as <-. apply commit_timer_ok; auto.
    left. apply observer_callback_timer.
  - destruct (inflight s !! i) as [p|] eqn:Ei; [|injection Hstep as <-; exact Hok].
    destruct (getPhotos_resume p r (set_inflight (delete i (inflight s)) s))
      as [t|] eqn:Er; cbv beta iota delta [bind] in Hstep; [|discriminate].
    injection Hstep as <-.
    apply getPhotos_resume_frame in Er as (_ & _ & _ & _ & _ & _ & Ht & _).
    apply commit_timer_ok; auto.
Qed.

Lemma mount_timer ls s : mount K ls = Ok s -> timer s = Some (500, []) /\ query s = [].
Proof.
  unfold mount. intros H.
  destruct (effect_restore (initial ls) (effect_debounce (initial ls) (initial ls)))
    as [t|] eqn:Er; cbv beta iota delta [bind] in H; [|discriminate].
  injection H as <-.
  assert (Ht : timer t = Some (500, []) /\ query t = []).
  { unfold effect_restore, effect_debounce in Er.
    repeat case_match; simplify_eq; auto. }
  destruct Ht as [Ht Hq].
  rewrite commit_timer, commit_query.
  unfold effect_page, effect_observe, effect_reset, effect_persist.
  cbn [page initial Z.ltb Z.compare Pos.compare Pos.compare_cont].
  assert (Hq' : query (set_observedLoading (loading (initial ls))
                   (getPhotos K (debouncedQuery (initial ls)) (mode (initial ls)) 1 true
                      (set_page 1 (set_photos []
                         (set_localStorage
                            (<[storage_key:=Json.stringify (history (initial ls))]>
                               (localStorage t)) t))))) = []).
  { cbn [query set_observedLoading]. rewrite getPhotos_query. exact Hq. }
  rewrite changed_same by (rewrite Hq'; reflexivity).
  split; [|exact Hq'].
  cbn [timer set_observedLoading]. rewrite getPhotos_timer. exact Ht.
Qed.

Lemma reachable_timer_ok s : reachable K s -> timer_ok s.
Proof.
  induction 1 as [ls s Hm | e s s' _ IH Hstep].
  - destruct (mount_timer ls s Hm) as [Ht Hq]. unfold timer_ok.
    rewrite Ht, Hq. split; [reflexivity | lia].
  - eapply step_timer_ok; eassumption.
Qed.

Lemma reachable_loading_ok s : reachable K s -> loading_ok s.
Proof.
  apply (reachable_keeps K loading_ok); unfold loading_ok; try (intros; cbn in *; auto; fail).
  - intros dq m n r t Ht. unfold getPhotos. repeat case_match; cbn; auto.
    intros _ Habs. apply app_eq_nil in Habs as [_ Habs]. discriminate.
  - intros i p r t t' _ _ Hres Hl.
    apply getPhotos_resume_frame in Hres as (_ & _ & _ & _ & _ & _ & _ & _ & _ & Hf).
    congruence.
Qed.

Lemma reachable_error_ok s : reachable K s -> error_ok s.
Proof.
  apply (reachable_keeps K error_ok); unfold error_ok; try (intros; cbn in *; auto; fail).
  - intros dq m n r t Ht. unfold getPhotos. repeat case_match; cbn in *; auto; simplify_eq.
  - intros i p r t t' Ht _ Hres. unfold getPhotos_resume in Hres.
    destruct r as [e|e|data]; cbn in Hres.
    + injection Hres as <-. cbn. unfold str_or. destruct (message e); exact I.
    + injection Hres as <-. cbn. unfold str_or. destruct (message e); exact I.
    + destruct (results_of (p_debouncedQuery p) data); [|discriminate].
      injection Hres as <-. repeat case_match; cbn in *; simplify_eq; auto;
        match goal with H : error _ = _ |- _ => cbn in H; rewrite H in Ht; exact Ht end.
Qed.

Lemma reachable_authorized s : reachable K s -> authorized K s.
Proof.
  apply (reachable_keeps K (authorized K)); unfold authorized;
    try (intros; cbn in *; auto; fail).
  - intros dq m n r t Ht. unfold getPhotos.
    destruct (has_key K) eqn:HK; cbn [negb]; [|exact Ht].
    destruct (cachedPage _ _ _); [exact Ht|]. cbn [fetched set_inflight set_fetched].
    apply Forall_app. split; [exact Ht|].
    constructor; [|constructor]. split; [reflexivity | eexists; reflexivity].
  - intros i p r t t' Ht _ Hres.
    apply getPhotos_resume_frame in Hres as (_ & _ & _ & _ & _ & _ & _ & _ & Hf & _).
    rewrite Hf. exact Ht.
Qed.

End MoreInvariants.

(** ** Trimming *)
Section Trim.

Lemma trimStart_split s :
  exists pre, s = pre ++ trimStart s /\ Forall (fun c => is_js_space c = true) pre.
Proof.
  induction s as [|c rest (pre & IH & Hpre)].
  - exists []. split; [reflexivity | constructor].
  - cbn [trimStart]. destruct (is_js_space c) eqn:E.
    + exists (c :: pre). split; [cbn; congruence | constructor; assumption].
    + exists []. split; [reflexivity | constructor].
Qed.

Lemma trimStart_head s :
  match trimStart s with [] => True | c :: _ => is_js_space c = false end.
Proof.
  induction s as [|c rest IH]; [exact I|].
  cbn [trimStart]. destruct (is_js_space c) eqn:E; assumption.
Qed.

Lemma trimStart_fixed s :
  match s with [] => True | c :: _ => is_js_space c = false end ->
  trimStart s = s.
Proof. destruct s as [|c rest]; [reflexivity|]. cbn. intros ->. reflexivity. Qed.

Lemma trimStart_last s : trimStart s <> [] -> last (trimStart s) = last s.
Proof.
  intros Hne. destruct (trimStart_split s) as (pre & Hs & _).
  rewrite Hs at 2. rewrite last_app.
  destruct (last (trimStart s)) eqn:E; [reflexivity|].
  apply last_None in E. congruence.
Qed.

Lemma trimStart_spaces s :
  Forall (fun c => is_js_space c = true) s -> trimStart s = [].
Proof.
  induction 1 as [|c rest Hc _ IH]; [reflexivity|]. cbn. rewrite Hc. exact IH.
Qed.

Lemma trim_trimmed s : trimmed (trim s).
Proof.
  unfold trim, trimEnd. set (u := trimStart s).
  set (x := trimStart (reverse u)).
  destruct (reverse x) as [|c t] eqn:Et; [exact I|].
  assert (Hx : x <> []).
  { intros Hx. rewrite Hx in Et. discriminate. }
  assert (Hhead : head (reverse x) = head u).
  { rewrite head_reverse. unfold x. rewrite trimStart_last by exact Hx.
    apply last_reverse. }
  assert (Hlast : last (reverse x) = head x) by apply last_reverse.
  rewrite Et in Hhead, Hlast. cbn [head] in Hhead. split.
  - pose proof (trimStart_head s) as Hu. fold u in Hu.
    destruct u as [|d u']; [discriminate|]. cbn in Hhead. congruence.
  - rewrite Hlast. pose proof (trimStart_head (reverse u)) as Hu. fold x in Hu.
    destruct x as [|d x']; [exact I | exact Hu].
Qed.

Lemma trimmed_fixed t : trimmed t -> trim t = t.
Proof.
  destruct t as [|c r]; [reflexivity|]. intros [Hc Hl].
  unfold trim, trimEnd. rewrite (trimStart_fixed (c :: r)) by exact Hc.
  rewrite trimStart_fixed; [apply reverse_involutive|].
  pose proof (head_reverse (c :: r)) as Hh.
  destruct (reverse (c :: r)) as [|d x] eqn:E; [exact I|].
  cbn [head] in Hh. rewrite <- Hh in Hl. exact Hl.
Qed.

Lemma trim_idempotent s : trim (trim s) = trim s.
Proof. apply trimmed_fixed, trim_trimmed. Qed.

Lemma trim_spaces s :
  Forall (fun c => is_js_space c = true) s -> trim s = [].
Proof. intros H. unfold trim. rewrite (trimStart_spaces s H). reflexivity. Qed.

End Trim.

(** ** The cache as a map *)
Section Cache.

Lemma has_pages_spec (c : gmap jsstring (gmap Z (list Photo))) key :
  has_pages c key = true <->
  key = prototype_key \/ is_Some (c !! key) \/ key ∈ inherited_names
  \/ exists n hit, prototype_pages c !! n = Some hit /\ num n = key.
Proof.
  unfold has_pages. rewrite !orb_true_iff, !bool_decide_eq_true, existsb_exists.
  split.
  - intros [[[H | H] | H] | ([n hit] & Hin & Hn)]; auto.
    right. right. right. exists n, hit.
    apply list_elem_of_In, elem_of_map_to_list in Hin.
    apply bool_decide_eq_true in Hn. auto.
  - intros [H | [H | [H | (n & hit & Hp & Hn)]]]; auto.
    right. exists (n, hit). split.
    + apply list_elem_of_In, elem_of_map_to_list. exact Hp.
    + apply bool_decide_eq_true. exact Hn.
Qed.

Lemma prototype_pages_insert_ne (c : gmap jsstring (gmap Z (list Photo))) key v :
  key <> prototype_key -> prototype_pages (<[key := v]> c) = prototype_pages c.
Proof. intros Hne. unfold prototype_pages. rewrite lookup_insert_ne by exact Hne. reflexivity. Qed.

(** The page just written is the one read back. *)
Lemma cachedPage_written (c : gmap jsstring (gmap Z (list Photo))) key n v :
  cachedPage (<[key := <[n := v]> (default ∅ (c !! key))]> c) key n = Some v.
Proof.
  unfold cachedPage.
  assert (H : has_pages (<[key := <[n := v]> (default ∅ (c !! key))]> c) key = true).
  { apply has_pages_spec. right. left. rewrite lookup_insert_eq. eauto. }
  rewrite H, lookup_insert_eq. cbn [from_option id]. rewrite lookup_insert_eq. reflexivity.
Qed.

(** A write under a key other than ["__proto__"] leaves what is read under
    every other key. *)
Lemma cachedPage_other_key (c : gmap jsstring (gmap Z (list Photo))) key n v key' n' :
  key <> prototype_key -> key' <> key ->
  cachedPage (<[key := <[n := v]> (default ∅ (c !! key))]> c) key' n'
  = cachedPage c key' n'.
Proof.
  intros Hp Hne. unfold cachedPage, has_pages.
  rewrite prototype_pages_insert_ne by exact Hp.
  rewrite lookup_insert_ne by congruence. reflexivity.
Qed.

(** A write under ["__proto__"] lands on [Object.prototype]: every key that
    has pages and lacks that page now reads it. *)
Lemma cachedPage_prototype (c : gmap jsstring (gmap Z (list Photo))) n v key' :
  key' <> prototype_key ->
  has_pages c key' = true ->
  default ∅ (c !! key') !! n = None ->
  cachedPage (<[prototype_key := <[n := v]> (default ∅ (c !! prototype_key))]> c) key' n
  = Some v.
Proof.
  intros Hne Hhas Hown. unfold cachedPage.
  assert (Hp : prototype_pages
                 (<[prototype_key := <[n := v]> (default ∅ (c !! prototype_key))]> c)
               = <[n := v]> (prototype_pages c)).
  { unfold prototype_pages. rewrite lookup_insert_eq. reflexivity. }
  assert (H : has_pages
                (<[prototype_key := <[n := v]> (default ∅ (c !! prototype_key))]> c) key'
              = true).
  { apply has_pages_spec. apply has_pages_spec in Hhas.
    destruct Hhas as [H | [H | [H | (m & hit & Hm & Hk)]]]; auto.
    - right. left. rewrite lookup_insert_ne by congruence. exact H.
    - right. right. right. rewrite Hp.
      destruct (decide (m = n)) as [-> | Hmn].
      + exists n, v. rewrite lookup_insert_eq. auto.
      + exists m, hit. rewrite lookup_insert_ne by congruence. auto. }
  rewrite H, Hp, lookup_insert_ne, Hown by congruence.
  apply lookup_insert_eq.
Qed.

(** No write makes a lookup that found a page find none. *)
Lemma cachedPage_kept (c : gmap jsstring (gmap Z (list Photo))) key n v key' n' hit :
  cachedPage c key' n' = Some hit ->
  exists hit',
    cachedPage (<[key := <[n := v]> (default ∅ (c !! key))]> c) key' n' = Some hit'.
Proof.
  set (c' := <[key := <[n := v]> (default ∅ (c !! key))]> c).
  unfold cachedPage. intros H.
  destruct (has_pages c key') eqn:Hhas; [|discriminate].
  assert (Hproto : forall m x, prototype_pages c !! m = Some x ->
                               exists x', prototype_pages c' !! m = Some x').
  { intros m x Hm. unfold prototype_pages, c'.
    destruct (decide (key = prototype_key)) as [-> | Hk].
    - rewrite lookup_insert_eq. cbn [from_option id].
      destruct (decide (m = n)) as [-> | Hmn].
      + rewrite lookup_insert_eq. eauto.
      + rewrite lookup_insert_ne by congruence. eauto.
    - rewrite lookup_insert_ne by exact Hk. eauto. }
  assert (Hhas' : has_pages c' key' = true).
  { apply has_pages_spec. apply has_pages_spec in Hhas.
    destruct Hhas as [H1 | [H1 | [H1 | (m & x & Hm & Hk)]]]; auto.
    - right. left. unfold c'. destruct (decide (key' = key)) as [-> | Hk].
      + rewrite lookup_insert_eq. eauto.
      + rewrite lookup_insert_ne by congruence. exact H1.
    - right. right. right. destruct (Hproto m x Hm) as [x' Hx']. eauto. }
  rewrite Hhas'.
  assert (Hown : forall x, default ∅ (c !! key') !! n' = Some x ->
                           exists x', default ∅ (c' !! key') !! n' = Some x').
  { intros x Hx. unfold c'. destruct (decide (key' = key)) as [-> | Hk].
    - rewrite lookup_insert_eq. cbn [from_option id].
      destruct (decide (n' = n)) as [-> | Hn].
      + rewrite lookup_insert_eq. eauto.
      + rewrite lookup_insert_ne by congruence. eauto.
    - rewrite lookup_insert_ne by congruence. eauto. }
  destruct (default ∅ (c !! key') !! n') as [x|] eqn:Ex.
  - destruct (Hown x eq_refl) as [x' ->]. eauto.
  - destruct (default ∅ (c' !! key') !! n'); [eauto|].
    exact (Hproto n' hit H).
Qed.

Lemma cache_kept_refl c : cache_kept c c.
Proof. intros key n hit H. eauto. Qed.

Lemma cache_kept_trans c1 c2 c3 :
  cache_kept c1 c2 -> cache_kept c2 c3 -> cache_kept c1 c3.
Proof.
  intros H12 H23 key n hit H. destruct (H12 key n hit H) as [hit' H'].
  exact (H23 key n hit' H').
Qed.

Lemma getPhotos_resume_cache p r s s' :
  getPhotos_resume p r s = Ok s' ->
  cache s' = cache s
  \/ exists results,
      cache s'
      = <[cacheKey (p_debouncedQuery p) (p_mode p)
          := <[p_pageNum p := results]>
               (default ∅ (cache s !! cacheKey (p_debouncedQuery p) (p_mode p)))]>
          (cache s).
Proof.
  unfold getPhotos_resume. intros H.
  destruct r as [e|e|data]; [injection H as <-; auto..|].
  destruct (results_of (p_debouncedQuery p) data) as [results|]; [|discriminate].
  injection H as <-. right. exists results.
  repeat case_match; reflexivity.
Qed.

End Cache.

(** ** Further properties of the component *)

Lemma keyless_step K e s s' :
  has_key K = false -> keyless s -> step K e s = Ok s' -> keyless s'.
Proof.
  intros HK.
  apply (step_keeps K keyless);
    try (intros; unfold keyless in *; cbn; assumption).
  - intros t (H1 & H2 & H3 & H4 & H5 & H6). repeat split; assumption.
  - intros dq m n r t (H1 & H2 & H3 & H4 & H5 & H6).
    unfold getPhotos. rewrite HK. repeat split; assumption.
  - intros i p r t t' (_ & H2 & _) Hi. rewrite H2 in Hi. discriminate.
Qed.

Lemma keyless_mount K ls s :
  has_key K = false -> mount K ls = Ok s -> keyless s.
Proof.
  intros HK. unfold mount. intros H.
  destruct (effect_restore (initial ls) (effect_debounce (initial ls) (initial ls)))
    as [t|] eqn:Er; cbv beta iota delta [bind] in H; [|discriminate].
  injection H as <-.
  assert (Ht : fetched t = [] /\ inflight t = [] /\ photos t = []
               /\ loading t = false /\ cache t = ∅).
  { unfold effect_restore, effect_debounce in Er.
    repeat case_match; simplify_eq; repeat split. }
  destruct Ht as (H1 & H2 & H3 & H4 & H5).
  apply (commit_keeps K keyless);
    try (intros; unfold keyless in *; cbn; assumption).
  - intros u (G1 & G2 & G3 & G4 & G5 & G6). repeat split; assumption.
  - intros dq m n r u (G1 & G2 & G3 & G4 & G5 & G6).
    unfold getPhotos. rewrite HK. repeat split; assumption.
  - unfold effect_page, effect_observe, effect_reset, effect_persist, getPhotos.
    rewrite HK. cbn. repeat split; assumption.
Qed.

(** X1. Without a key the component never calls [fetch]: in every state it
    can reach nothing is suspended, the cache and the list are empty, and
    what shows is the error "No API key found." with the empty notice. *)
Theorem no_key_shows_only_error K s
    (HK : has_key K = false) (Hr : reachable K s) :
  keyless s
  /\ error_banner (render s) = Some (js "No API key found.")
  /\ cards (render s) = []
  /\ empty_notice (render s) = true
  /\ loading_notice (render s) = false.
Proof.
  assert (Hk : keyless s).
  { induction Hr as [ls s Hm | e s s' _ IH Hstep].
    - eapply keyless_mount; eassumption.
    - eapply keyless_step; eassumption. }
  split; [exact Hk|].
  destruct Hk as (_ & _ & H3 & H4 & _ & H6).
  unfold render. cbn. rewrite H3, H4, H6. repeat split.
Qed.

Lemma no_key_shows_only_error_witness :
  has_key None = false
  /\ reachable None Sample.keyless_mounted
  /\ fetched Sample.keyless_mounted = []
  /\ error_banner (render Sample.keyless_mounted) = Some (js "No API key found.").
Proof.
  assert (Hr : reachable None Sample.keyless_mounted).
  { apply (reachable_mount None ∅). vm_compute; reflexivity. }
  split; [reflexivity|]. split; [exact Hr|].
  destruct (no_key_shows_only_error None Sample.keyless_mounted eq_refl Hr)
    as ((H1 & _) & H2 & _).
  split; [exact H1 | exact H2].
Defined.



Lemma step_cache_kept K e s s' :
  step K e s = Ok s' -> cache_kept (cache s) (cache s').
Proof.
  intros Hstep. destruct e; cbn [step] in Hstep;
    try (injection Hstep as <-; rewrite commit_cache; apply cache_kept_refl).
  - injection Hstep as <-. unfold tick.
    destruct (timer s) as [[remaining q]|]; [|apply cache_kept_refl].
    destruct (ms <? remaining); [apply cache_kept_refl|].
    rewrite commit_cache. apply cache_kept_refl.
  - injection Hstep as <-. rewrite commit_cache.
    assert (E : cache (observer_callback entries s) = cache s).
    { apply (observer_callback_keeps (fun t => cache t = cache s)); [|reflexivity].
      intros t Ht. exact Ht. }
    rewrite E. apply cache_kept_refl.
  - destruct (inflight s !! i) as [p|]; [|injection Hstep as <-; apply cache_kept_refl].
    destruct (getPhotos_resume p r (set_inflight (delete i (inflight s)) s))
      as [t|] eqn:Er; cbv beta iota delta [bind] in Hstep; [|discriminate].
    injection Hstep as <-. rewrite commit_cache.
    apply getPhotos_resume_cache in Er as [-> | [results ->]];
      [apply cache_kept_refl|].
    intros key n hit Hhit. cbn [cache set_inflight] in *.
    eapply cachedPage_kept. exact Hhit.
Qed.

Lemma run_cache_kept K es : forall s s',
  run K es s = Ok s' -> cache_kept (cache s) (cache s').
Proof.
  induction es as [|e rest IH]; intros s s' Hrun.
  - injection Hrun as <-. apply cache_kept_refl.
  - cbn [run] in Hrun.
    destruct (step K e s) as [t|] eqn:Est; cbv beta iota delta [bind] in Hrun;
      [|discriminate].
    eapply cache_kept_trans; [exact (step_cache_kept K e s t Est) | exact (IH t s' Hrun)].
Qed.

(** X3. The cache only grows: a page that is cached stays cached through
    every run of events, so a call of [getPhotos] for it after the run
    calls [fetch] no more. *)
Theorem cached_pages_stay K es s s' dq m n hit
    (Hrun : run K es s = Ok s')
    (Hhit : cachedPage (cache s) (cacheKey dq m) n = Some hit) :
  (exists hit', cachedPage (cache s') (cacheKey dq m) n = Some hit')
  /\ forall rep, fetched (getPhotos K dq m n rep s') = fetched s'
                 /\ inflight (getPhotos K dq m n rep s') = inflight s'.
Proof.
  pose proof (run_cache_kept K es s s' Hrun) as Hkept.
  destruct (Hkept _ _ _ Hhit) as [hit' Hhit'].
  split; [eauto|]. intros rep.
  unfold getPhotos. rewrite Hhit'. destruct (has_key K); cbn; auto.
Qed.

Lemma cached_pages_stay_witness :
  run Demo.K [SetMode latest; Respond 0 (Parsed (DArray [Demo.b]))] Demo.idle
  = Ok Sample.both_feeds
  /\ cachedPage (cache Demo.idle) (cacheKey [] popular) 1 = Some [Demo.a]
  /\ exists hit', cachedPage (cache Sample.both_feeds) (cacheKey [] popular) 1 = Some hit'.
Proof.
  assert (Hrun : run Demo.K [SetMode latest; Respond 0 (Parsed (DArray [Demo.b]))]
                   Demo.idle = Ok Sample.both_feeds) by (vm_compute; reflexivity).
  assert (Hhit : cachedPage (cache Demo.idle) (cacheKey [] popular) 1 = Some [Demo.a])
    by (vm_compute; reflexivity).
  split; [exact Hrun|]. split; [exact Hhit|].
  exact (proj1 (cached_pages_stay Demo.K _ Demo.idle Sample.both_feeds [] popular 1
                  [Demo.a] Hrun Hhit)).
Defined.



(** X5. The debounced query the timeout stores has no white space at
    either end and trimming it again changes nothing; an input of white
    space only settles to the empty query, for which the address requested
    is the one of the feed. *)
Theorem settled_query_is_trimmed K s remaining q ms
    (Ht : timer s = Some (remaining, q))
    (Hms : remaining <= ms) :
  let s' := tick K ms s in
  debouncedQuery s' = trim q
  /\ trimmed (debouncedQuery s')
  /\ trim (debouncedQuery s') = debouncedQuery s'
  /\ (Forall (fun c => is_js_space c = true) q ->
      debouncedQuery s' = []
      /\ forall m n,
          request_url (debouncedQuery s') m n
          = js "https://api.unsplash.com/photos?page=" ++ num n
              ++ js "&per_page=20&order_by=" ++ mode_text m).
Proof.
  cbv zeta. destruct (tick_fire_spec K s remaining q ms Ht Hms) as (_ & H2 & _).
  rewrite H2. split; [reflexivity|]. split; [apply trim_trimmed|].
  split; [apply trim_idempotent|].
  intros Hsp. rewrite (trim_spaces q Hsp). split; reflexivity.
Qed.

Lemma settled_query_is_trimmed_witness :
  timer (set_timer (Some (500, js "  ")) Demo.idle) = Some (500, js "  ")
  /\ Forall (fun c => is_js_space c = true) (js "  ")
  /\ debouncedQuery (tick Demo.K 500 (set_timer (Some (500, js "  ")) Demo.idle)) = [].
Proof.
  assert (Hsp : Forall (fun c => is_js_space c = true) (js "  "))
    by (repeat constructor).
  split; [reflexivity|]. split; [exact Hsp|].
  destruct (settled_query_is_trimmed Demo.K
              (set_timer (Some (500, js "  ")) Demo.idle) 500 (js "  ") 500
              eq_refl ltac:(reflexivity)) as (_ & _ & _ & H).
  exact (proj1 (H Hsp)).
Defined.

(** X6. While a load is in progress, or when no entry intersects, the
    observer callback changes nothing: the page counter stays and nothing
    is requested. *)
Theorem sentinel_ignored_while_loading K s entries
    (Hr : reachable K s)
    (Hl : loading s = true \/ Forall (fun b => b = false) entries) :
  step K (Intersect entries) s = Ok s.
Proof.
  cbn [step]. f_equal.
  assert (Hcb : observer_callback entries s = s).
  { destruct Hl as [Hl | Hl].
    - apply observer_callback_blind.
      destruct (reachable_sound K s Hr) as (Ho & _). congruence.
    - apply observer_callback_none, Hl. }
  rewrite Hcb. apply commit_idle; reflexivity.
Qed.

Lemma sentinel_ignored_while_loading_witness :
  reachable Demo.K Demo.mounted
  /\ loading Demo.mounted = true
  /\ step Demo.K (Intersect [true; true]) Demo.mounted = Ok Demo.mounted.
Proof.
  assert (Hr : reachable Demo.K Demo.mounted).
  { apply (reachable_mount Demo.K ∅). vm_compute; reflexivity. }
  split; [exact Hr|]. split; [reflexivity|].
  apply (sentinel_ignored_while_loading Demo.K Demo.mounted [true; true] Hr).
  left. reflexivity.
Defined.

Lemma set_page_same s : set_page (page s) s = s.
Proof. destruct s; reflexivity. Qed.

Lemma observer_callback_adds entries : forall s,
  observedLoading s = false ->
  observer_callback entries s
  = set_page (page s + Z.of_nat (length (filter (fun b => b = true) entries))) s.
Proof.
  induction entries as [|b rest IH]; intros s Hobs.
  - cbn. rewrite Z.add_0_r. symmetry. apply set_page_same.
  - unfold observer_callback. cbn [fold_left]. rewrite Hobs. cbn [negb].
    fold (observer_callback rest (if b && true then set_page (page s + 1) s else s)).
    destruct b; cbn [andb].
    + rewrite IH by exact Hobs. rewrite filter_cons_True by reflexivity.
      cbn [page set_page length]. rewrite Nat2Z.inj_succ.
      replace (page s + 1 + Z.of_nat (length (filter (fun b => b = true) rest)))%Z
        with (page s + Z.succ (Z.of_nat (length (filter (fun b => b = true) rest))))%Z
        by lia.
      reflexivity.
    + rewrite IH by exact Hobs. rewrite filter_cons_False by discriminate. reflexivity.
Qed.



Lemma set_query_same s : set_query (query s) s = s.
Proof. destruct s; reflexivity. Qed.

Lemma set_mode_same s : set_mode (mode s) s = s.
Proof. destruct s; reflexivity. Qed.

Lemma set_debouncedQuery_same s : set_debouncedQuery (debouncedQuery s) s = s.
Proof. destruct s; reflexivity. Qed.

(** X8. An event that sets what is set already does nothing: entering the
    text the input holds, choosing the mode that is chosen, or clicking the
    history term that is both the input and the debounced query leaves the
    state as it is, with no timer restarted and nothing requested. *)
Theorem unchanged_values_are_ignored K s :
  step K (Change (query s)) s = Ok s
  /\ step K (SetMode (mode s)) s = Ok s
  /\ (forall term,
        query s = term -> debouncedQuery s = term ->
        step K (HistoryClick term) s = Ok s)
  /\ (forall d, timer s = None -> step K (Tick d) s = Ok s).
Proof.
  split; [|split; [|split]].
  - cbn [step]. rewrite set_query_same, commit_idle; reflexivity.
  - cbn [step]. rewrite set_mode_same, commit_idle; reflexivity.
  - intros term <- Hd. cbn [step]. unfold handleHistoryClick.
    rewrite set_query_same, <- Hd, set_debouncedQuery_same, commit_idle; reflexivity.
  - intros d Ht. cbn [step]. unfold tick. rewrite Ht. reflexivity.
Qed.

Lemma unchanged_values_are_ignored_witness :
  query Demo.searching = js "cats"
  /\ debouncedQuery Demo.searching = js "cats"
  /\ step Demo.K (HistoryClick (js "cats")) Demo.searching = Ok Demo.searching.
Proof.
  split; [reflexivity|]. split; [reflexivity|].
  destruct (unchanged_values_are_ignored Demo.K Demo.searching) as (_ & _ & H & _).
  apply H; reflexivity.
Defined.

(** X9. Opening and closing the modal touches nothing but [selected]: no
    effect runs, and closing after opening from a closed modal gives back
    the state; while open, the modal shows the selected photo. *)
Theorem modal_opens_and_closes K s p :
  step K (Select p) s = Ok (set_selected (Some p) s)
  /\ step K CloseModal s = Ok (set_selected None s)
  /\ modal (render (set_selected (Some p) s)) = Some (modal_of p)
  /\ modal (render (set_selected None s)) = None
  /\ (selected s = None -> run K [Select p; CloseModal] s = Ok s).
Proof.
  split; [cbn [step]; rewrite commit_idle; reflexivity|].
  split; [cbn [step]; rewrite commit_idle; reflexivity|].
  split; [reflexivity|]. split; [reflexivity|].
  intros Hs. cbn [run step]. rewrite commit_idle by reflexivity.
  cbv beta iota delta [bind]. rewrite commit_idle by reflexivity.
  destruct s; cbn in *; subst; reflexivity.
Qed.

Lemma modal_opens_and_closes_witness :
  selected Demo.idle = None
  /\ run Demo.K [Select Demo.a; CloseModal] Demo.idle = Ok Demo.idle.
Proof.
  split; [reflexivity|].
  destruct (modal_opens_and_closes Demo.K Demo.idle Demo.a) as (_ & _ & _ & _ & H).
  apply H. reflexivity.
Defined.





(** X12. Only a search that replaces the list writes the history: an
    answer to a call that appends, an answer to a call for a feed, and a
    failed call leave the history and [localStorage] as they were. *)
Theorem history_kept_by_other_answers K i p r s s'
    (Hi : inflight s !! i = Some p)
    (Hother : p_replace p = false \/ p_debouncedQuery p = []
              \/ exists e, r = FetchThrows e \/ r = JsonThrows e)
    (Hstep : step K (Respond i r) s = Ok s') :
  history s' = history s /\ localStorage s' = localStorage s.
Proof.
  cbn [step] in Hstep. rewrite Hi in Hstep.
  destruct (getPhotos_resume p r (set_inflight (delete i (inflight s)) s))
    as [t|] eqn:Er; cbv beta iota delta [bind] in Hstep; [|discriminate].
  injection Hstep as <-.
  assert (Hh : history t = history s).
  { unfold getPhotos_resume in Er.
    destruct Hother as [Hrep | [Hdq | (e & [-> | ->])]].
    - rewrite Hrep in Er. repeat case_match; simplify_eq; reflexivity.
    - rewrite Hdq in Er. cbn [truthy andb] in Er. rewrite andb_false_r in Er.
      repeat case_match; simplify_eq; reflexivity.
    - injection Er as <-. reflexivity.
    - injection Er as <-. reflexivity. }
  apply getPhotos_resume_frame in Er as (_ & Hls & _).
  rewrite commit_history, commit_localStorage, changed_same by congruence.
  split; [exact Hh | exact Hls].
Qed.

Lemma history_kept_by_other_answers_witness :
  inflight Demo.mounted !! 0%nat = Some Demo.first_call
  /\ p_debouncedQuery Demo.first_call = []
  /\ step Demo.K (Respond 0 (Parsed (DArray [Demo.a]))) Demo.mounted = Ok Demo.idle
  /\ history Demo.idle = history Demo.mounted.
Proof.
  assert (Hstep : step Demo.K (Respond 0 (Parsed (DArray [Demo.a]))) Demo.mounted
                  = Ok Demo.idle) by (vm_compute; reflexivity).
  split; [reflexivity|]. split; [reflexivity|]. split; [exact Hstep|].
  exact (proj1 (history_kept_by_other_answers Demo.K 0 Demo.first_call _
                  Demo.mounted Demo.idle eq_refl (or_intror (or_introl eq_refl)) Hstep)).
Defined.

Lemma getPhotos_resume_history_term p r s s' :
  getPhotos_resume p r s = Ok s' ->
  history s' = history s
  \/ (p_debouncedQuery p <> []
      /\ history s' = newHistory (p_debouncedQuery p) (history s)).
Proof.
  unfold getPhotos_resume. intros H.
  destruct r as [e|e|data]; [injection H as <-; auto..|].
  destruct (results_of (p_debouncedQuery p) data); [|discriminate].
  destruct (p_replace p); cbn [andb] in H; [|injection H as <-; auto].
  destruct (p_debouncedQuery p) as [|ch rest] eqn:E; cbn [truthy] in H;
    injection H as <-; [auto|].
  right. split; [discriminate | reflexivity].
Qed.

Lemma step_history_term K e s s' :
  step K e s = Ok s' ->
  history s' = history s
  \/ exists dq, dq <> [] /\ history s' = newHistory dq (history s).
Proof.
  intros Hstep. destruct e; cbn [step] in Hstep;
    try (injection Hstep as <-; rewrite commit_history; auto; fail).
  - injection Hstep as <-. unfold tick.
    destruct (timer s) as [[remaining q]|]; [|auto].
    destruct (ms <? remaining); [auto|]. rewrite commit_history. auto.
  - injection Hstep as <-. rewrite commit_history.
    destruct (observer_callback_frame entries s) as (_ & _ & H & _). auto.
  - destruct (inflight s !! i) as [p|]; [|injection Hstep as <-; auto].
    destruct (getPhotos_resume p r (set_inflight (delete i (inflight s)) s))
      as [t|] eqn:Er; cbv beta iota delta [bind] in Hstep; [|discriminate].
    injection Hstep as <-. rewrite commit_history.
    apply getPhotos_resume_history_term in Er as [-> | [Hne ->]]; eauto.
Qed.

Lemma newHistory_nonempty dq prev :
  dq <> [] -> Forall (fun h => h <> []) prev ->
  Forall (fun h => h <> []) (newHistory dq prev).
Proof.
  intros Hdq Hprev. unfold newHistory. apply Forall_take.
  constructor; [exact Hdq|].
  apply Forall_forall. intros h Hh. apply list_elem_of_filter in Hh as [_ Hh].
  rewrite Forall_forall in Hprev. exact (Hprev h Hh).
Qed.

(** X13. No empty term enters the history: when the history holds none, it
    holds none after any run of events. *)
Theorem history_terms_stay_nonempty K es s s'
    (Hne : Forall (fun h => h <> []) (history s))
    (Hrun : run K es s = Ok s') :
  Forall (fun h => h <> []) (history s').
Proof.
  revert s Hne Hrun. induction es as [|e rest IH]; intros s Hne Hrun.
  - injection Hrun as <-. exact Hne.
  - cbn [run] in Hrun.
    destruct (step K e s) as [t|] eqn:Est; cbv beta iota delta [bind] in Hrun;
      [|discriminate].
    apply (IH t); [|exact Hrun].
    destruct (step_history_term K e s t Est) as [-> | (dq & Hdq & ->)];
      [exact Hne | apply newHistory_nonempty; assumption].
Qed.

Lemma history_terms_stay_nonempty_witness :
  Forall (fun h => h <> []) (history Demo.mounted)
  /\ Forall (fun h => h <> [])
       (history (Demo.state_of
                   (run Demo.K [Respond 0 (Parsed (DArray [Demo.a]));
                                HistoryClick (js "cats");
                                Respond 0 (Parsed (DObject (Some [Demo.b])))]
                      Demo.mounted))).
Proof.
  assert (Hne : Forall (fun h : jsstring => h <> []) (history Demo.mounted))
    by (vm_compute; constructor).
  split; [exact Hne|].
  apply (history_terms_stay_nonempty Demo.K
           [Respond 0 (Parsed (DArray [Demo.a])); HistoryClick (js "cats");
            Respond 0 (Parsed (DObject (Some [Demo.b])))] Demo.mounted _ Hne).
  vm_compute; reflexivity.
Defined.



(** X15. The loading flag is up only while a call is suspended; any answer
    or failure lowers it, whether or not other calls are still suspended. *)
Theorem loading_means_pending K s
    (Hr : reachable K s) :
  (loading s = true -> inflight s <> [])
  /\ forall i p r s',
      inflight s !! i = Some p ->
      step K (Respond i r) s = Ok s' ->
      loading s' = false
      /\ inflight s' = delete i (inflight s)
      /\ length (inflight s') = pred (length (inflight s)).
Proof.
  split; [apply (reachable_loading_ok K s Hr)|].
  intros i p r s' Hi Hstep. cbn [step] in Hstep. rewrite Hi in Hstep.
  destruct (getPhotos_resume p r (set_inflight (delete i (inflight s)) s))
    as [t|] eqn:Er; cbv beta iota delta [bind] in Hstep; [|discriminate].
  injection Hstep as <-.
  apply getPhotos_resume_frame in Er
    as (_ & _ & Hp & _ & Hm & Hd & _ & Hin & _ & Hl).
  destruct (commit_no_load K s t) as (_ & H2 & _ & H4 & _).
  { unfold feed_changed. rewrite !changed_same by (symmetry; assumption). reflexivity. }
  { symmetry. exact Hp. }
  rewrite H2, H4, Hin. cbn [inflight set_inflight].
  split; [exact Hl|]. split; [reflexivity|].
  rewrite length_delete by eauto. lia.
Qed.

Lemma loading_means_pending_witness :
  reachable Demo.K Sample.several_pending
  /\ loading Sample.several_pending = true
  /\ length (inflight Sample.several_pending) = 3%nat
  /\ exists s',
      step Demo.K (Respond 0 (Parsed (DArray [Demo.b]))) Sample.several_pending = Ok s'
      /\ loading s' = false
      /\ length (inflight s') = 2%nat.
Proof.
  assert (Hr : reachable Demo.K Sample.several_pending).
  { apply (reachable_step Demo.K (SetMode latest)
             (Demo.state_of (step Demo.K (Intersect [true]) Demo.idle)));
      [|vm_compute; reflexivity].
    apply (reachable_step Demo.K (Intersect [true]) Demo.idle);
      [|vm_compute; reflexivity].
    apply (reachable_step Demo.K (Respond 0 (Parsed (DArray [Demo.a])))
             Demo.mounted Demo.idle); [|vm_compute; reflexivity].
    apply (reachable_mount Demo.K ∅ Demo.mounted). vm_compute; reflexivity. }
  split; [exact Hr|]. split; [vm_compute; reflexivity|].
  split; [vm_compute; reflexivity|].
  destruct (loading_means_pending Demo.K Sample.several_pending Hr) as [_ H].
  set (s' := Demo.state_of
               (step Demo.K (Respond 0 (Parsed (DArray [Demo.b]))) Sample.several_pending)).
  assert (Hstep : step Demo.K (Respond 0 (Parsed (DArray [Demo.b])))
                    Sample.several_pending = Ok s') by (vm_compute; reflexivity).
  destruct (H 0%nat {| p_debouncedQuery := []; p_mode := popular; p_pageNum := 2;
                       p_replace := false |} _ s' ltac:(vm_compute; reflexivity) Hstep)
    as (H1 & _ & H3).
  exists s'. split; [exact Hstep|]. split; [exact H1|].
  rewrite H3. vm_compute. reflexivity.
Defined.

(** X16. An error that is set always shows: in every state the component
    can reach the error is no empty text, so the banner holds exactly the
    error. *)
Theorem error_banner_shows_error K s
    (Hr : reachable K s) :
  error_banner (render s) = error s.
Proof.
  pose proof (reachable_error_ok K s Hr) as Hok. unfold error_ok in Hok.
  unfold render. cbn [error_banner].
  destruct (error s) as [[|c rest]|]; [contradiction | reflexivity..].
Qed.

Lemma error_banner_shows_error_witness :
  reachable Demo.K Sample.failed_load
  /\ error_banner (render Sample.failed_load) = Some (js "Something went wrong").
Proof.
  assert (Hr : reachable Demo.K Sample.failed_load).
  { apply (reachable_step Demo.K (Respond 0 (FetchThrows {| message := [] |}))
             Demo.mounted); [|vm_compute; reflexivity].
    apply (reachable_mount Demo.K ∅ Demo.mounted). vm_compute; reflexivity. }
  split; [exact Hr|].
  rewrite (error_banner_shows_error Demo.K Sample.failed_load Hr).
  vm_compute. reflexivity.
Defined.

(** X17. Every call of [fetch] the component ever made was made with a key
    configured, carries that key in its [Authorization] header, and goes to
    the photos or the search address of the one API host. *)
Theorem requests_are_authorized K s r
    (Hr : reachable K s) (Hin : r ∈ fetched s) :
  has_key K = true
  /\ authorization r = js "Client-ID " ++ default [] K
  /\ (exists dq m n, url r = request_url dq m n)
  /\ exists rest, url r = js "https://api.unsplash.com/" ++ rest.
Proof.
  pose proof (reachable_authorized K s Hr) as Hok. unfold authorized in Hok.
  rewrite Forall_forall in Hok. destruct (Hok r Hin) as (HK & p & ->).
  split; [exact HK|]. split; [reflexivity|].
  split; [exists (p_debouncedQuery p), (p_mode p), (p_pageNum p); reflexivity|].
  cbn [url request_for]. unfold request_url.
  destruct (truthy (p_debouncedQuery p)); eexists; reflexivity.
Qed.

Lemma requests_are_authorized_witness :
  reachable Demo.K Demo.mounted
  /\ request_for Demo.K Demo.first_call ∈ fetched Demo.mounted
  /\ authorization (request_for Demo.K Demo.first_call) = js "Client-ID demo-key".
Proof.
  assert (Hr : reachable Demo.K Demo.mounted).
  { apply (reachable_mount Demo.K ∅). vm_compute; reflexivity. }
  assert (Hin : request_for Demo.K Demo.first_call ∈ fetched Demo.mounted).
  { vm_compute. apply list_elem_of_here. }
  split; [exact Hr|]. split; [exact Hin|].
  exact (proj1 (proj2 (requests_are_authorized Demo.K Demo.mounted _ Hr Hin))).
Defined.

(** X18. Whatever [localStorage] holds, a component that mounts with a key
    starts in the popular mode on page one with an empty input, an empty
    list and an empty cache, shows the loading notice, has the debounce
    timeout pending, and has made exactly one request: the first page of
    the popular feed. *)
Theorem mount_requests_first_page K ls s
    (HK : has_key K = true) (Hm : mount K ls = Ok s) :
  let p := {| p_debouncedQuery := []; p_mode := popular; p_pageNum := 1;
              p_replace := true |} in
  page s = 1%Z /\ mode s = popular /\ query s = [] /\ debouncedQuery s = []
  /\ photos s = [] /\ cache s = ∅ /\ error s = None /\ selected s = None
  /\ loading s = true
  /\ inflight s = [p]
  /\ fetched s = [request_for K p]
  /\ timer s = Some (500, [])
  /\ loading_notice (render s) = true
  /\ empty_notice (render s) = false.
Proof.
  cbv zeta. destruct (mount_timer K ls s Hm) as [Htimer Hquery].
  unfold mount in Hm.
  destruct (effect_restore (initial ls) (effect_debounce (initial ls) (initial ls)))
    as [t|] eqn:Er; cbv beta iota delta [bind] in Hm; [|discriminate].
  injection Hm as <-.
  assert (Ht : fetched t = [] /\ inflight t = [] /\ photos t = []
               /\ loading t = false /\ cache t = ∅ /\ mode t = popular
               /\ debouncedQuery t = [] /\ error t = None /\ selected t = None
               /\ page t = 1%Z).
  { unfold effect_restore, effect_debounce in Er.
    repeat case_match; simplify_eq; repeat split. }
  destruct Ht as (H1 & H2 & H3 & H4 & H5 & H6 & H7 & H8 & H9 & H10).
  match goal with |- context [commit K (initial ls) ?x] => set (t4 := x) in * end.
  assert (E4 : t4 = set_observedLoading false
                      (getPhotos K [] popular 1 true
                         (set_page 1 (set_photos []
                            (set_localStorage
                               (<[storage_key := Json.stringify []]> (localStorage t)) t)))))
    by reflexivity.
  rewrite getPhotos_miss in E4
    by (auto; cbn [cache set_page set_photos set_localStorage]; rewrite H5; reflexivity).
  assert (F4 : page t4 = 1%Z /\ mode t4 = popular /\ debouncedQuery t4 = []
               /\ photos t4 = [] /\ cache t4 = ∅ /\ error t4 = None
               /\ selected t4 = None /\ loading t4 = true
               /\ inflight t4 = [{| p_debouncedQuery := []; p_mode := popular;
                                    p_pageNum := 1; p_replace := true |}]
               /\ fetched t4 = [request_for K {| p_debouncedQuery := [];
                                                 p_mode := popular; p_pageNum := 1;
                                                 p_replace := true |}]).
  { rewrite E4. cbn. rewrite H1, H2. repeat split; assumption. }
  destruct F4 as (G1 & G2 & G3 & G4 & G5 & G6 & G7 & G8 & G9 & G10).
  destruct (commit_no_load K (initial ls) t4) as (C1 & C2 & C3 & C4 & C5).
  { unfold feed_changed. rewrite !changed_same by (symmetry; assumption). reflexivity. }
  { symmetry. exact G1. }
  assert (Hsel : selected (commit K (initial ls) t4) = None).
  { rewrite commit_spec. unfold resubscribe.
    case_match; cbn; rewrite effects_selected; exact G7. }
  unfold render. cbn [loading_notice empty_notice].
  rewrite commit_page, commit_mode, commit_debouncedQuery, commit_cache,
    C1, C2, C3, C4, C5, Hsel.
  assert (Hnf : feed_changed (initial ls) t4 = false).
  { unfold feed_changed. rewrite !changed_same by (symmetry; assumption). reflexivity. }
  rewrite Hnf, G4, G8. repeat split; assumption.
Qed.

Lemma mount_requests_first_page_witness :
  has_key Demo.K = true
  /\ mount Demo.K Demo.storage = Ok (Demo.state_of (mount Demo.K Demo.storage))
  /\ inflight (Demo.state_of (mount Demo.K Demo.storage)) = [Demo.first_call]
  /\ loading (Demo.state_of (mount Demo.K Demo.storage)) = true.
Proof.
  assert (Hm : mount Demo.K Demo.storage = Ok (Demo.state_of (mount Demo.K Demo.storage)))
    by (vm_compute; reflexivity).
  split; [reflexivity|]. split; [exact Hm|].
  destruct (mount_requests_first_page Demo.K Demo.storage _ eq_refl Hm)
    as (_ & _ & _ & _ & _ & _ & _ & _ & H9 & H10 & _).
  split; [exact H10 | exact H9].
Defined.

Lemma opt_or_truthy a b : truthy b = true -> truthy (opt_or a b) = true.
Proof. intros Hb. destruct a as [[|c rest]|]; cbn; auto. Qed.

(** X19. Every image rendered has an alternative text: a card falls back
    to "Photo by" and the user's name, the modal to "Photo", and the title
    of the modal to the alternative text and then to "Untitled". *)
Theorem images_have_alt_text s :
  Forall (fun c => truthy (card_alt c) = true) (cards (render s))
  /\ match modal (render s) with
     | Some m => truthy (modal_alt m) = true /\ truthy (modal_title m) = true
     | None => selected s = None
     end.
Proof.
  split.
  - unfold render. cbn [cards]. apply Forall_fmap, Forall_forall. intros p _.
    cbn. apply opt_or_truthy. reflexivity.
  - unfold render. cbn [modal]. destruct (selected s) as [p|]; cbn [fmap option_fmap option_map]; [|reflexivity].
    split; cbn; repeat apply opt_or_truthy; reflexivity.
Qed.



(** X21. The page counter is at least one in every state the component
    can reach, and the observer callback there closes over the current
    loading flag. *)
Theorem page_counter_is_positive K s
    (Hr : reachable K s) :
  (1 <= page s)%Z /\ observedLoading s = loading s.
Proof.
  destruct (reachable_sound K s Hr) as (Ho & Hp & _). split; assumption.
Qed.

Lemma page_counter_is_positive_witness :
  reachable Demo.K Demo.mounted /\ (1 <= page Demo.mounted)%Z.
Proof.
  assert (Hr : reachable Demo.K Demo.mounted).
  { apply (reachable_mount Demo.K ∅). vm_compute; reflexivity. }
  split; [exact Hr|].
  exact (proj1 (page_counter_is_positive Demo.K Demo.mounted Hr)).
Defined.

Lemma filter_absent (dq : jsstring) (prev : list jsstring) :
  dq ∉ prev -> filter (fun h => h <> dq) prev = prev.
Proof.
  induction prev as [|h rest IH]; intros Hn; [reflexivity|].
  apply not_elem_of_cons in Hn as [Hh Hn].
  rewrite filter_cons_True by congruence. rewrite IH by exact Hn. reflexivity.
Qed.

Lemma filter_present (dq : jsstring) (prev : list jsstring) :
  NoDup prev -> dq ∈ prev -> prev ≡ₚ dq :: filter (fun h => h <> dq) prev.
Proof.
  induction prev as [|h rest IH]; intros Hnd Hin; [inversion Hin|].
  apply NoDup_cons in Hnd as [Hh Hnd].
  destruct (decide (h = dq)) as [-> | Hne].
  - rewrite filter_cons_False by auto. rewrite filter_absent by exact Hh. reflexivity.
  - rewrite filter_cons_True by exact Hne.
    apply elem_of_cons in Hin as [-> | Hin]; [congruence|].
    rewrite (IH Hnd Hin) at 1. apply Permutation_swap.
Qed.

Lemma newHistory_cases dq prev :
  history_ok prev ->
  (dq ∉ prev -> newHistory dq prev = dq :: take 4 prev)
  /\ (dq ∈ prev ->
      newHistory dq prev = dq :: filter (fun h => h <> dq) prev
      /\ newHistory dq prev ≡ₚ prev).
Proof.
  intros Hok. destruct Hok as [Hnd Hlen]. split.
  - intros Hn. unfold newHistory. rewrite filter_absent by exact Hn. reflexivity.
  - intros Hin. pose proof (filter_present dq prev Hnd Hin) as Hperm.
    assert (Hl : (length (dq :: filter (fun h => h <> dq) prev) <= 5)%nat).
    { rewrite <- Hperm. exact Hlen. }
    unfold newHistory. rewrite take_ge by exact Hl.
    split; [reflexivity | symmetry; exact Hperm].
Qed.

(** X22. What the answer to a search that replaces the list does to a
    history with no term twice and five terms at most: a new term goes to
    the front and, with five terms there already, the oldest one is
    dropped; a term the history holds, restored from an earlier session or
    put there by an earlier answer, moves to the front and the others keep
    their order, so the history holds the same terms as before. *)
Theorem history_update_cases K i p data results s
    (Hi : inflight s !! i = Some p)
    (Hrep : p_replace p = true)
    (Hq : p_debouncedQuery p <> [])
    (Hres : results_of (p_debouncedQuery p) data = Some results)
    (Hok : history_ok (history s)) :
  exists s',
    step K (Respond i (Parsed data)) s = Ok s'
    /\ (p_debouncedQuery p ∉ history s ->
        history s' = p_debouncedQuery p :: take 4 (history s))
    /\ (p_debouncedQuery p ∈ history s ->
        history s'
        = p_debouncedQuery p :: filter (fun h => h <> p_debouncedQuery p) (history s)
        /\ history s' ≡ₚ history s).
Proof.
  destruct (respond_search_history K i p data results s Hi Hrep Hq Hres)
    as (s' & Hs & Hh).
  exists s'. split; [exact Hs|]. rewrite Hh.
  apply newHistory_cases. exact Hok.
Qed.

Lemma history_update_cases_witness :
  inflight Sample.restored_search !! 0%nat = Some Sample.restored_call
  /\ history Sample.restored_search = [js "cats"; js "dogs"]
  /\ history_ok (history Sample.restored_search)
  /\ js "dogs" ∈ history Sample.restored_search
  /\ exists s',
      step Demo.K (Respond 0 (Parsed (DObject (Some [Demo.b])))) Sample.restored_search
      = Ok s'
      /\ history s' = [js "dogs"; js "cats"].
Proof.
  assert (Hh : history Sample.restored_search = [js "cats"; js "dogs"])
    by (vm_compute; reflexivity).
  assert (Hok : history_ok (history Sample.restored_search)).
  { rewrite Hh. split; [|cbn; lia]. apply (bool_decide_unpack _). vm_compute. exact I. }
  assert (Hin : js "dogs" ∈ history Sample.restored_search).
  { rewrite Hh. apply (bool_decide_unpack _). vm_compute. exact I. }
  split; [vm_compute; reflexivity|]. split; [exact Hh|].
  split; [exact Hok|]. split; [exact Hin|].
  destruct (history_update_cases Demo.K 0 Sample.restored_call
              (DObject (Some [Demo.b])) [Demo.b] Sample.restored_search
              ltac:(vm_compute; reflexivity) eq_refl ltac:(discriminate) eq_refl Hok)
    as (s' & H1 & _ & H3).
  exists s'. split; [exact H1|].
  destruct (H3 Hin) as [H4 _]. rewrite H4, Hh. vm_compute. reflexivity.
Defined.

Lemma mount_restores K ls stored h :
  ls !! storage_key = Some stored -> Json.parse stored = Some h ->
  exists s, mount K ls = Ok s /\ history s = h.
Proof.
  intros Hs Hp. unfold mount.
  assert (Er : effect_restore (initial ls) (effect_debounce (initial ls) (initial ls))
               = Ok (set_history h (effect_debounce (initial ls) (initial ls)))).
  { unfold effect_restore. cbn [localStorage effect_debounce set_timer initial].
    rewrite Hs, (JsonFacts.parse_nonempty stored h Hp), Hp. reflexivity. }
  rewrite Er. cbv beta iota delta [bind]. eexists. split; [reflexivity|].
  rewrite commit_history. unfold effect_page, effect_observe, effect_reset.
  cbn [page initial Z.ltb Z.compare Pos.compare Pos.compare_cont].
  cbn [history set_observedLoading]. rewrite getPhotos_history. reflexivity.
Qed.

(** X23. A reload keeps the history: mounting again over the
    [localStorage] of any state the component reached succeeds and starts
    with the history of that state. *)
Theorem remount_restores_history K s
    (Hr : reachable K s) :
  exists s', mount K (localStorage s) = Ok s' /\ history s' = history s.
Proof.
  destruct (reachable_sound K s Hr) as (_ & _ & Hls).
  apply (mount_restores K (localStorage s) (Json.stringify (history s)));
    [exact Hls | apply JsonFacts.parse_stringify].
Qed.

Lemma remount_restores_history_witness :
  reachable Demo.K
    (Demo.state_of (step Demo.K (Respond 0 (Parsed (DObject (Some [Demo.b]))))
                      Demo.searching))
  /\ exists s',
      mount Demo.K
        (localStorage
           (Demo.state_of (step Demo.K (Respond 0 (Parsed (DObject (Some [Demo.b]))))
                             Demo.searching))) = Ok s'
      /\ history s' = [js "cats"].
Proof.
  set (s := Demo.state_of (step Demo.K (Respond 0 (Parsed (DObject (Some [Demo.b]))))
                             Demo.searching)).
  assert (Hr : reachable Demo.K s).
  { apply (reachable_step Demo.K (Respond 0 (Parsed (DObject (Some [Demo.b]))))
             Demo.searching); [|vm_compute; reflexivity].
    apply (reachable_step Demo.K (HistoryClick (js "cats")) Demo.idle);
      [|vm_compute; reflexivity].
    apply (reachable_step Demo.K (Respond 0 (Parsed (DArray [Demo.a])))
             Demo.mounted Demo.idle); [|vm_compute; reflexivity].
    apply (reachable_mount Demo.K ∅ Demo.mounted). vm_compute; reflexivity. }
  split; [exact Hr|].
  destruct (remount_restores_history Demo.K s Hr) as (s' & H1 & H2).
  exists s'. split; [exact H1|]. rewrite H2. vm_compute. reflexivity.
Defined.

(** X24. The component writes [localStorage] under "search-history" only:
    every other key holds after any run what it held before mounting. *)
Theorem other_storage_keys_untouched K ls es s0 s key
    (Hkey : key <> storage_key)
    (Hm : mount K ls = Ok s0)
    (Hrun : run K es s0 = Ok s) :
  localStorage s !! key = ls !! key.
Proof.
  set (P := fun t : State => localStorage t !! key = ls !! key).
  assert (Hset : forall h t,
             P t -> P (set_localStorage
                         (<[storage_key := Json.stringify h]> (localStorage t)) t)).
  { intros h t Ht. unfold P in *. cbn [localStorage set_localStorage].
    rewrite lookup_insert_ne by congruence. exact Ht. }
  assert (Hget : forall dq m n r t, P t -> P (getPhotos K dq m n r t)).
  { intros dq m n r t Ht. unfold P in *. rewrite getPhotos_localStorage. exact Ht. }
  assert (Hres : forall i p r t t',
             P t -> inflight t !! i = Some p ->
             getPhotos_resume p r (set_inflight (delete i (inflight t)) t) = Ok t' ->
             P t').
  { intros i p r t t' Ht _ Er. unfold P in *.
    apply getPhotos_resume_frame in Er as (_ & Hls & _). rewrite Hls. exact Ht. }
  assert (Hid : forall (A : Type) (f : A -> State -> State),
             (forall v t, localStorage (f v t) = localStorage t) ->
             forall v t, P t -> P (f v t)).
  { intros A f Hf v t Ht. unfold P in *. rewrite Hf. exact Ht. }
  assert (H0 : P s0).
  { apply (mount_keeps K P) with (ls := ls); try exact Hm; try exact Hset;
      try exact Hget; try (apply Hid; reflexivity); try reflexivity;
      intros t Ht; exact Ht. }
  apply (run_keeps K P) with (es := es) (s := s0); try exact Hrun; try exact H0;
    try exact Hset; try exact Hget; try exact Hres;
    try (apply Hid; reflexivity); intros t Ht; exact Ht.
Qed.

Lemma other_storage_keys_untouched_witness :
  js "theme" <> storage_key
  /\ localStorage
       (Demo.state_of
          (run Demo.K [Respond 0 (Parsed (DArray [Demo.a])); HistoryClick (js "cats");
                       Respond 0 (Parsed (DObject (Some [Demo.b])))]
             (Demo.state_of (mount Demo.K Sample.shared_storage))))
     !! js "theme" = Some (js "dark").
Proof.
  assert (Hkey : js "theme" <> storage_key) by (vm_compute; discriminate).
  split; [exact Hkey|].
  set (s0 := Demo.state_of (mount Demo.K Sample.shared_storage)).
  set (es := [Respond 0 (Parsed (DArray [Demo.a])); HistoryClick (js "cats");
              Respond 0 (Parsed (DObject (Some [Demo.b])))]).
  set (s := Demo.state_of (run Demo.K es s0)).
  assert (Hm : mount Demo.K Sample.shared_storage = Ok s0) by (vm_compute; reflexivity).
  assert (Hrun : run Demo.K es s0 = Ok s) by (vm_compute; reflexivity).
  rewrite (other_storage_keys_untouched Demo.K Sample.shared_storage es s0 s
             (js "theme") Hkey Hm Hrun).
  vm_compute. reflexivity.
Defined.

(** ** The addresses requested *)

Lemma request_url_described q m n : request_url q m n = described_url q m n.
Proof. destruct q, m; reflexivity. Qed.

Lemma getPhotos_fetched_new K q m n rep t :
  exists new,
    fetched (getPhotos K q m n rep t) = fetched t ++ new
    /\ Forall (fun r => exists n', url r = described_url q m n') new.
Proof.
  destruct (getPhotos_fetched K q m n rep t) as [-> | ->].
  - exists []. rewrite app_nil_r. split; [reflexivity | constructor].
  - eexists. split; [reflexivity|]. constructor; [|constructor].
    exists n. apply request_url_described.
Qed.

Lemma effects_fetched_new K prev cur :
  exists new,
    fetched (effects K prev cur) = fetched cur ++ new
    /\ Forall (fun r => exists n,
                 url r = described_url (debouncedQuery cur) (mode cur) n) new.
Proof.
  unfold effects.
  set (t1 := if changed query prev cur then effect_debounce cur cur else cur).
  set (t2 := if changed history prev cur then effect_persist cur t1 else t1).
  set (t3 := if feed_changed prev cur then effect_reset K cur t2 else t2).
  set (t4 := if changed loading prev cur then effect_observe cur t3 else t3).
  assert (H2 : fetched t2 = fetched cur).
  { unfold t2, t1. repeat case_match; reflexivity. }
  assert (H3 : exists new1, fetched t3 = fetched cur ++ new1
             /\ Forall (fun r => exists n,
                   url r = described_url (debouncedQuery cur) (mode cur) n) new1).
  { unfold t3. destruct (feed_changed prev cur).
    - unfold effect_reset.
      destruct (getPhotos_fetched_new K (debouncedQuery cur) (mode cur) 1 true
                  (set_page 1 (set_photos [] t2))) as (new1 & E & F).
      exists new1. rewrite E. cbn [fetched set_page set_photos]. rewrite H2. auto.
    - exists []. rewrite app_nil_r. split; [exact H2 | constructor]. }
  destruct H3 as (new1 & E3 & F3).
  assert (H4 : fetched t4 = fetched cur ++ new1).
  { unfold t4. rewrite <- E3. case_match; reflexivity. }
  destruct (changed page prev cur || feed_changed prev cur);
    [|exists new1; split; [exact H4 | exact F3]].
  unfold effect_page.
  destruct (1 <? page cur)%Z; [|exists new1; split; [exact H4 | exact F3]].
  destruct (getPhotos_fetched_new K (debouncedQuery cur) (mode cur) (page cur) false t4)
    as (new2 & E & F).
  exists (new1 ++ new2). rewrite E, H4, app_assoc.
  split; [reflexivity | apply Forall_app; auto].
Qed.

Lemma commit_fetched_new K prev cur :
  exists new,
    fetched (commit K prev cur) = fetched cur ++ new
    /\ Forall (fun r => exists n,
                 url r = described_url (debouncedQuery (commit K prev cur))
                           (mode (commit K prev cur)) n) new.
Proof.
  rewrite commit_fetched, commit_debouncedQuery, commit_mode.
  apply effects_fetched_new.
Qed.

Lemma mount_first_request K ls s :
  has_key K = true -> mount K ls = Ok s ->
  fetched s = [request_for K {| p_debouncedQuery := []; p_mode := popular;
                                p_pageNum := 1; p_replace := true |}].
Proof.
  intros HK Hm. unfold mount in Hm.
  destruct (effect_restore (initial ls) (effect_debounce (initial ls) (initial ls)))
    as [t|] eqn:Er; cbv beta iota delta [bind] in Hm; [|discriminate].
  injection Hm as <-.
  assert (Ht : fetched t = [] /\ cache t = ∅ /\ mode t = popular
               /\ debouncedQuery t = [] /\ page t = 1%Z).
  { unfold effect_restore, effect_debounce in Er.
    repeat case_match; simplify_eq; repeat split. }
  destruct Ht as (H1 & H5 & H6 & H7 & H10).
  match goal with |- context [commit K (initial ls) ?x] => set (t4 := x) in * end.
  assert (E4 : t4 = set_observedLoading false
                      (getPhotos K [] popular 1 true
                         (set_page 1 (set_photos []
                            (set_localStorage
                               (<[storage_key := Json.stringify []]> (localStorage t)) t)))))
    by reflexivity.
  rewrite getPhotos_miss in E4
    by (auto; cbn [cache set_page set_photos set_localStorage]; rewrite H5; reflexivity).
  assert (F4 : page t4 = 1%Z /\ mode t4 = popular /\ debouncedQuery t4 = []
               /\ fetched t4 = [request_for K {| p_debouncedQuery := [];
                                                 p_mode := popular; p_pageNum := 1;
                                                 p_replace := true |}]).
  { rewrite E4. cbn. rewrite H1. repeat split; assumption. }
  destruct F4 as (G1 & G2 & G3 & G10).
  destruct (commit_no_load K (initial ls) t4) as (_ & _ & _ & _ & C5).
  { unfold feed_changed. rewrite !changed_same by (symmetry; assumption). reflexivity. }
  { symmetry. exact G1. }
  rewrite C5. exact G10.
Qed.


